(** * Telegram Multi node: validation, request construction and dispatch

    A shallow embedding of [GenericFunctions.ts] (validators, sanitizer,
    [telegramApiRequest] and the seven operation functions) and of
    [TelegramMulti.node.ts] ([execute]), with the properties of the
    specification stated and proved over it.

    Conventions of the embedding:
    - a JavaScript string is a [string]; each [ascii] stands for one UTF-16
      code unit below 256, so [String.length] is [.length];
    - a JavaScript object used as a bag of fields is a [gmap string value];
    - a thrown error is a value of [Error], one constructor per [throw] site;
    - the HTTP transport is an oracle of the host, and every call made to it is
      recorded in a trace that the operations thread through. *)

From Stdlib Require Import ZArith Ascii String List Bool Lia.
From stdpp Require Import gmap strings list fin_maps pretty.

Open Scope string_scope.

(* ===================================================================== *)
(** ** JavaScript values *)
(* ===================================================================== *)

(** A number: [Finite m e] is the real [m * 2^e].  Both signed zeros are
    [Finite 0 _]; the code never tells them apart. *)
Inductive number : Type :=
| NaN
| Infinity (negative : bool)
| Finite (m e : Z).

#[warnings="-register-all"]
Inductive value : Type :=
| VUndefined
| VNull
| VBool (b : bool)
| VNum (n : number)
| VStr (s : string)
| VObj (o : gmap string value).

Module Js.

Definition isZero (n : number) : bool :=
  match n with
  | Finite m _ => (m =? 0)%Z
  | _ => false
  end.

(** The integer [z] as a number. *)
Definition ofZ (z : Z) : number := Finite z 0.

(** [Number.isInteger]. *)
Definition isInteger (n : number) : bool :=
  match n with
  | Finite m e => (0 <=? e)%Z || (m mod 2 ^ (- e) =? 0)%Z
  | _ => false
  end.

(** ToBoolean: what [if (v)] and [!v] test. *)
Definition truthy (v : value) : bool :=
  match v with
  | VUndefined | VNull => false
  | VBool b => b
  | VNum NaN => false
  | VNum n => negb (isZero n)
  | VStr s => negb (String.eqb s "")
  | VObj _ => true
  end.

Inductive type : Type :=
| TUndefined | TObject | TBoolean | TNumber | TString.

(** The [typeof] operator ([typeof null] is ["object"]). *)
Definition typeof (v : value) : type :=
  match v with
  | VUndefined => TUndefined
  | VNull => TObject
  | VBool _ => TBoolean
  | VNum _ => TNumber
  | VStr _ => TString
  | VObj _ => TObject
  end.

Definition isString (v : value) : bool :=
  match v with VStr _ => true | _ => false end.

Definition isNumber (v : value) : bool :=
  match v with VNum _ => true | _ => false end.

Fixpoint dropZeros (s : string) : string :=
  match s with
  | String "0" s' => dropZeros s'
  | _ => s
  end.

(** Number::toString, radix 10.  Exact for NaN, the infinities and every
    integral value below 10^21; a non-integral value is printed with the
    decimal expansion of [m * 2^e], which is what the engine prints when
    that expansion is the shortest one that reads back. *)
Definition numberToString (n : number) : string :=
  match n with
  | NaN => "NaN"
  | Infinity false => "Infinity"
  | Infinity true => "-Infinity"
  | Finite m e =>
      if (0 <=? e)%Z then pretty (m * 2 ^ e)%Z
      else
        let k := (- e)%Z in
        if (m mod 2 ^ k =? 0)%Z then pretty (m / 2 ^ k)%Z
        else
          let a := Z.abs m in
          let frac := pretty ((a mod 2 ^ k) * 5 ^ k)%Z in
          let pad := Z.to_nat k - String.length frac in
          let digits := String.rev (dropZeros (String.rev frac)) in
          (if (m <? 0)%Z then "-" else "")
            +:+ pretty (a / 2 ^ k)%Z +:+ "."
            +:+ string_of_list_ascii (repeat "0"%char pad) +:+ digits
  end.

(** ToString, as applied by [String(v)], template literals and, for the
    primitive values, by the [toString] method. *)
Definition toString (v : value) : string :=
  match v with
  | VUndefined => "undefined"
  | VNull => "null"
  | VBool true => "true"
  | VBool false => "false"
  | VNum n => numberToString n
  | VStr s => s
  | VObj _ => "[object Object]"
  end.

End Js.

(* ===================================================================== *)
(** ** Regular expressions *)
(* ===================================================================== *)

(** The three patterns of the source are anchored at both ends ([^...$], no
    flags), so [RegExp.prototype.test] decides whether the whole string
    belongs to the language of the pattern.  [Regex.test] decides that
    membership with Brzozowski derivatives; [Regex.Matches] is the language. *)
Module Regex.

Inductive regex : Type :=
| Void
| Eps
| Class (p : ascii -> bool)
| Cat (r1 r2 : regex)
| Alt (r1 r2 : regex)
| Star (r : regex).

Inductive Matches : regex -> string -> Prop :=
| MEps : Matches Eps ""
| MClass p c : p c = true -> Matches (Class p) (String c "")
| MCat r1 r2 s1 s2 :
    Matches r1 s1 -> Matches r2 s2 -> Matches (Cat r1 r2) (s1 +:+ s2)
| MAltL r1 r2 s : Matches r1 s -> Matches (Alt r1 r2) s
| MAltR r1 r2 s : Matches r2 s -> Matches (Alt r1 r2) s
| MStar0 r : Matches (Star r) ""
| MStarS r s1 s2 :
    Matches r s1 -> Matches (Star r) s2 -> Matches (Star r) (s1 +:+ s2).

Fixpoint nullable (r : regex) : bool :=
  match r with
  | Void => false
  | Eps => true
  | Class _ => false
  | Cat r1 r2 => nullable r1 && nullable r2
  | Alt r1 r2 => nullable r1 || nullable r2
  | Star _ => true
  end.

Fixpoint deriv (c : ascii) (r : regex) : regex :=
  match r with
  | Void => Void
  | Eps => Void
  | Class p => if p c then Eps else Void
  | Cat r1 r2 =>
      if nullable r1
      then Alt (Cat (deriv c r1) r2) (deriv c r2)
      else Cat (deriv c r1) r2
  | Alt r1 r2 => Alt (deriv c r1) (deriv c r2)
  | Star r1 => Cat (deriv c r1) (Star r1)
  end.

Fixpoint test (r : regex) (s : string) : bool :=
  match s with
  | EmptyString => nullable r
  | String c s' => test (deriv c r) s'
  end.

(** *** Pattern syntax *)

(** [x?] *)
Definition Opt (r : regex) : regex := Alt Eps r.

(** [x+] *)
Definition Plus (r : regex) : regex := Cat r (Star r).

(** [x{n}] *)
Fixpoint Times (n : nat) (r : regex) : regex :=
  match n with
  | O => Eps
  | S k => Cat r (Times k r)
  end.

(** [x{0,n}] *)
Fixpoint Upto (n : nat) (r : regex) : regex :=
  match n with
  | O => Eps
  | S k => Opt (Cat r (Upto k r))
  end.

(** [x{m,n}] *)
Definition Between (m n : nat) (r : regex) : regex :=
  Cat (Times m r) (Upto (n - m) r).

(** A literal character. *)
Definition Chr (c : ascii) : regex := Class (Ascii.eqb c).

(** *** Character classes *)

Definition inRange (lo hi c : ascii) : bool :=
  (nat_of_ascii lo <=? nat_of_ascii c)%nat
  && (nat_of_ascii c <=? nat_of_ascii hi)%nat.

(** [[0-9]], which is also [\d]. *)
Definition digit (c : ascii) : bool := inRange "0" "9" c.

(** [[a-zA-Z]] *)
Definition letter (c : ascii) : bool := inRange "a" "z" c || inRange "A" "Z" c.

(** [[a-zA-Z0-9_]] *)
Definition word (c : ascii) : bool := letter c || digit c || Ascii.eqb c "_".

(** [[A-Za-z0-9_-]] *)
Definition wordOrHyphen (c : ascii) : bool := word c || Ascii.eqb c "-".

(** Every character of the string is in the class. *)
Fixpoint all (p : ascii -> bool) (s : string) : bool :=
  match s with
  | EmptyString => true
  | String c s' => p c && all p s'
  end.

End Regex.

(* ===================================================================== *)
(** ** Validators and sanitizer (GenericFunctions.ts) *)
(* ===================================================================== *)

Import Regex.

Definition type_eqb (a b : Js.type) : bool :=
match a, b with
| Js.TUndefined, Js.TUndefined | Js.TObject, Js.TObject
| Js.TBoolean, Js.TBoolean | Js.TNumber, Js.TNumber
| Js.TString, Js.TString => true
| _, _ => false
end.

(** [/^[0-9]{8,10}:[A-Za-z0-9_-]{30,45}$/] *)
Definition tokenRegex : regex :=
Cat (Between 8 10 (Class digit))
  (Cat (Chr ":") (Between 30 45 (Class wordOrHyphen))).

(** [/^-?\d+$/] *)
Definition numericRegex : regex :=
Cat (Opt (Chr "-")) (Plus (Class digit)).

(** [/^@[a-zA-Z][a-zA-Z0-9_]{4,31}$/] *)
Definition usernameRegex : regex :=
Cat (Chr "@") (Cat (Class letter) (Between 4 31 (Class word))).

Definition validateBotToken (token : value) : bool :=
if negb (Js.truthy token) || negb (type_eqb (Js.typeof token) Js.TString)
then false
else test tokenRegex (Js.toString token).

Definition validateChatId (chatId : value) : bool :=
if negb (Js.truthy chatId) then false
else if type_eqb (Js.typeof chatId) Js.TNumber
        || test numericRegex (Js.toString chatId)
then true
else if type_eqb (Js.typeof chatId) Js.TString
        && String.prefix "@" (Js.toString chatId)
then test usernameRegex (Js.toString chatId)
else false.

(** [s.replace(/c/g, by)] for a one-character pattern. *)
Fixpoint replaceAll (c : ascii) (by_ : string) (s : string) : string :=
match s with
| EmptyString => EmptyString
| String a s' =>
    if Ascii.eqb a c then by_ +:+ replaceAll c by_ s'
    else String a (replaceAll c by_ s')
end.

(** White space and line terminators among the code units below 256:
    TAB, LF, VT, FF, CR, SP and NBSP. *)
Definition isWhiteSpace (c : ascii) : bool :=
match nat_of_ascii c with
| 9 | 10 | 11 | 12 | 13 | 32 | 160 => true
| _ => false
end.

Fixpoint trimStart (s : string) : string :=
match s with
| EmptyString => EmptyString
| String c s' => if isWhiteSpace c then trimStart s' else s
end.

Fixpoint trimEnd (s : string) : string :=
match s with
| EmptyString => EmptyString
| String c s' =>
    match trimEnd s' with
    | EmptyString => if isWhiteSpace c then EmptyString else String c EmptyString
    | t => String c t
    end
end.

(** [String.prototype.trim] *)
Definition trim (s : string) : string := trimEnd (trimStart s).

Definition quote : ascii := "034"%char.
Definition apostrophe : ascii := "039"%char.

(** The five replacements of [sanitizeText], in the order of the source. *)
Definition escapeHtml (s : string) : string :=
replaceAll apostrophe "&#x27;"
  (replaceAll quote "&quot;"
    (replaceAll ">" "&gt;"
      (replaceAll "<" "&lt;"
        (replaceAll "&" "&amp;" s)))).

Definition sanitizeText (text : value) : string :=
if negb (Js.truthy text) || negb (type_eqb (Js.typeof text) Js.TString)
then ""
else trim (escapeHtml (Js.toString text)).

(* ===================================================================== *)
(** ** Objects, errors and the host *)
(* ===================================================================== *)

(** Property read [o.k]: a missing property reads as [undefined]. *)
Definition get (o : gmap string value) (k : string) : value :=
default VUndefined (o !! k).

(** [{ ...target, ...source }]: the properties written later win. *)
Definition assign (target source : gmap string value) : gmap string value :=
source ∪ target.

(** The own enumerable properties that [...v] copies: those of an object,
    the indexed characters of a string, nothing for the other values. *)
Definition spread (v : value) : gmap string value :=
match v with
| VObj o => o
| VStr s =>
    list_to_map
      (imap (fun i c => (pretty i, VStr (String c ""))) (list_ascii_of_string s))
| _ => ∅
end.

(** An error object that the code did not create itself: thrown by the
    transport or by the host's parameter and credential lookup. *)
Record Exception : Type := {
  exc_name : string;
  exc_code : option string;
  exc_message : string
}.

Inductive Media : Type := Photo | Document.

(** The errors the code throws, one constructor per [throw] site.  The
    token errors of [execute] carry the item index, those of
    [telegramApiRequest] do not. *)
Inductive Error : Type :=
| MissingToken (itemIndex : option nat)
| InvalidTokenFormat (itemIndex : option nat)
| InvalidChatId (chatId : value)
| EmptyText
| TextTooLong (length : nat)
| InvalidMessageId
| MissingMedia (m : Media)
| CaptionTooLong (m : Media) (length : nat)
| ApiError (response : gmap string value)
| ConnectionRefused
| Timeout
| RequestFailed (cause : Exception)
| UnknownAuthMethod (authMethod : value) (itemIndex : nat)
| HostError (cause : Exception).

(** [Error.prototype.toString] when the message is empty: the name. *)
Definition exceptionText (e : Exception) : string :=
if String.eqb (exc_message e) "" then exc_name e else exc_message e.

Definition mediaName (m : Media) : string :=
match m with Photo => "Photo" | Document => "Document" end.

(** The [message] property of each error. *)
Definition message (e : Error) : string :=
match e with
| MissingToken _ => "Bot token is required"
| InvalidTokenFormat None =>
    "Invalid bot token format. Expected format: 123456789:ABCdefGHIjklMNOpqrSTUvwxyz"
| InvalidTokenFormat (Some _) => "Invalid bot token format"
| InvalidChatId chatId =>
    "Invalid chat ID: " +:+ Js.toString chatId
      +:+ ". Use numeric ID or @username format."
| EmptyText => "Message text cannot be empty"
| TextTooLong n =>
    "Message text is too long (" +:+ pretty n
      +:+ " characters). Maximum is 4096 characters."
| InvalidMessageId => "Valid message ID is required"
| MissingMedia m => mediaName m +:+ " URL or file_id is required"
| CaptionTooLong m n =>
    mediaName m +:+ " caption is too long (" +:+ pretty n
      +:+ " characters). Maximum is 1024 characters."
| ApiError response =>
    let description := get response "description" in
    "Telegram API Error: "
      +:+ (if Js.truthy description then Js.toString description
           else "Unknown Telegram API error")
| ConnectionRefused =>
    "Could not connect to Telegram API. Please check your internet connection."
| Timeout => "Request to Telegram API timed out. Please try again."
| RequestFailed cause => "Telegram API request failed: " +:+ exceptionText cause
| UnknownAuthMethod authMethod _ =>
    "Invalid authentication method: " +:+ Js.toString authMethod
| HostError cause => exc_message cause
end.

(** [error.message || error.toString()] *)
Definition errorText (e : Error) : string :=
match e with
| HostError cause => exceptionText cause
| _ => message e
end.

Record IHttpRequestOptions : Type := {
  method : string;
  headers : gmap string value;
  body : gmap string value;
  qs : gmap string value;
  url : string;
  json : bool;
  timeout : Z
}.

(** The requests handed to the transport so far, oldest first. *)
Definition Trace : Type := list IHttpRequestOptions.

Record INodeExecutionData : Type := {
  json_ : gmap string value;
  pairedItem : nat
}.

(** The execution context [this].  The transport [helpers_request] answers a
    request, knowing the requests made before it, with the parsed response
    body or with an exception. *)
Record IExecuteFunctions : Type := {
  getInputData : list (gmap string value);
  getNodeParameter : string -> nat -> Exception + value;
  getCredentials : string -> nat -> Exception + gmap string value;
  continueOnFail : bool;
  helpers_request : Trace -> IHttpRequestOptions -> Exception + gmap string value
}.

(** *** Computations that may throw and may call the transport *)

Definition M (A : Type) : Type := Trace -> (Error + A) * Trace.

Definition ret {A} (a : A) : M A := fun tr => (inr a, tr).

Definition throw {A} (e : Error) : M A := fun tr => (inl e, tr).

Definition bind {A B} (m : M A) (k : A -> M B) : M B :=
fun tr =>
  match m tr with
  | (inr a, tr') => k a tr'
  | (inl e, tr') => (inl e, tr')
  end.

Notation "'let*' x ':=' m 'in' k" := (bind m (fun x => k))
  (at level 10, x pattern, m at level 100, k at level 200).

(** A call of the host that may throw. *)
Definition host {A} (r : Exception + A) : M A :=
match r with
| inr a => ret a
| inl e => throw (HostError e)
end.

(** [await this.helpers.request(options)]: the call is recorded, and its
    outcome is handed to the continuation, which is the [try] block. *)
Definition request (this : IExecuteFunctions) (options : IHttpRequestOptions)
  : Trace -> (Exception + gmap string value) * Trace :=
fun tr => (helpers_request this tr options, (tr ++ [options])%list).

(* ===================================================================== *)
(** ** Request builder and operation functions (GenericFunctions.ts) *)
(* ===================================================================== *)

(** The [catch] block of [telegramApiRequest] applied to an exception of the
    transport, which is neither a [NodeApiError] nor a [NodeOperationError]. *)
Definition translateException (error : Exception) : Error :=
match exc_code error with
| Some code =>
    if String.eqb code "ECONNREFUSED" then ConnectionRefused
    else if String.eqb code "ETIMEDOUT" then Timeout
    else RequestFailed error
| None => RequestFailed error
end.

Definition telegramApiRequest (this : IExecuteFunctions)
    (method endpoint : string) (body qs headers : gmap string value)
    (botToken : value) : M (gmap string value) :=
if negb (Js.truthy botToken) then throw (MissingToken None)
else if negb (validateBotToken botToken) then throw (InvalidTokenFormat None)
else
  let options :=
    {| method := method;
       headers := assign {[ "Content-Type" := VStr "application/json" ]} headers;
       body := body;
       qs := qs;
       url := "https://api.telegram.org/bot" +:+ Js.toString botToken +:+ endpoint;
       json := true;
       timeout := 30000 |} in
  fun tr =>
    match request this options tr with
    | (inr response, tr') =>
        if negb (Js.truthy (get response "ok"))
        then (* the NodeApiError has no [code] and is thrown again as it is *)
          (inl (ApiError response), tr')
        else (inr response, tr')
    | (inl error, tr') => (inl (translateException error), tr')
    end.

(** A default parameter value: used when the argument is [undefined]. *)
Definition orDefault (v d : value) : value :=
match v with VUndefined => d | _ => v end.

Definition sendMessage (this : IExecuteFunctions)
    (chatId text botToken additionalFields : value) : M (gmap string value) :=
let additionalFields := orDefault additionalFields (VObj ∅) in
if negb (validateChatId chatId) then throw (InvalidChatId chatId)
else
  let sanitizedText := sanitizeText text in
  if negb (Js.truthy (VStr sanitizedText)) then throw EmptyText
  else if (4096 <? String.length sanitizedText)%nat
  then throw (TextTooLong (String.length sanitizedText))
  else
    let body :=
      assign {[ "chat_id" := chatId; "text" := VStr sanitizedText ]}
             (spread additionalFields) in
    telegramApiRequest this "POST" "/sendMessage" body ∅ ∅ botToken.

(** The caption step shared, word for word, by [sendPhoto] and
    [sendDocument]: sanitize a non-empty string caption in place and check
    its length. *)
Definition sanitizeCaption (m : Media) (body : gmap string value)
  : M (gmap string value) :=
if Js.truthy (get body "caption")
   && type_eqb (Js.typeof (get body "caption")) Js.TString
then
  let caption := sanitizeText (get body "caption") in
  let body := <[ "caption" := VStr caption ]> body in
  if (1024 <? String.length caption)%nat
  then throw (CaptionTooLong m (String.length caption))
  else ret body
else ret body.

Definition sendPhoto (this : IExecuteFunctions)
    (chatId photo botToken additionalFields : value) : M (gmap string value) :=
let additionalFields := orDefault additionalFields (VObj ∅) in
if negb (validateChatId chatId) then throw (InvalidChatId chatId)
else if negb (Js.truthy photo) then throw (MissingMedia Photo)
else
  let body :=
    assign {[ "chat_id" := chatId; "photo" := photo ]}
           (spread additionalFields) in
  let* body := sanitizeCaption Photo body in
  telegramApiRequest this "POST" "/sendPhoto" body ∅ ∅ botToken.

Definition sendDocument (this : IExecuteFunctions)
    (chatId document botToken additionalFields : value) : M (gmap string value) :=
let additionalFields := orDefault additionalFields (VObj ∅) in
if negb (validateChatId chatId) then throw (InvalidChatId chatId)
else if negb (Js.truthy document) then throw (MissingMedia Document)
else
  let body :=
    assign {[ "chat_id" := chatId; "document" := document ]}
           (spread additionalFields) in
  let* body := sanitizeCaption Document body in
  telegramApiRequest this "POST" "/sendDocument" body ∅ ∅ botToken.

Definition getChat (this : IExecuteFunctions)
    (chatId botToken : value) : M (gmap string value) :=
if negb (validateChatId chatId) then throw (InvalidChatId chatId)
else
  let body := {[ "chat_id" := chatId ]} in
  telegramApiRequest this "POST" "/getChat" body ∅ ∅ botToken.

Definition getChatAdministrators (this : IExecuteFunctions)
    (chatId botToken : value) : M (gmap string value) :=
if negb (validateChatId chatId) then throw (InvalidChatId chatId)
else
  let body := {[ "chat_id" := chatId ]} in
  telegramApiRequest this "POST" "/getChatAdministrators" body ∅ ∅ botToken.

Definition editMessage (this : IExecuteFunctions)
    (chatId messageId text botToken additionalFields : value)
  : M (gmap string value) :=
let additionalFields := orDefault additionalFields (VObj ∅) in
if negb (validateChatId chatId) then throw (InvalidChatId chatId)
else if negb (Js.truthy messageId)
        || negb (type_eqb (Js.typeof messageId) Js.TNumber)
then throw InvalidMessageId
else
  let sanitizedText := sanitizeText text in
  if negb (Js.truthy (VStr sanitizedText)) then throw EmptyText
  else if (4096 <? String.length sanitizedText)%nat
  then throw (TextTooLong (String.length sanitizedText))
  else
    let body :=
      assign {[ "chat_id" := chatId; "message_id" := messageId;
                "text" := VStr sanitizedText ]}
             (spread additionalFields) in
    telegramApiRequest this "POST" "/editMessageText" body ∅ ∅ botToken.

Definition deleteMessage (this : IExecuteFunctions)
    (chatId messageId botToken : value) : M (gmap string value) :=
if negb (validateChatId chatId) then throw (InvalidChatId chatId)
else if negb (Js.truthy messageId)
        || negb (type_eqb (Js.typeof messageId) Js.TNumber)
then throw InvalidMessageId
else
  let body := {[ "chat_id" := chatId; "message_id" := messageId ]} in
  telegramApiRequest this "POST" "/deleteMessage" body ∅ ∅ botToken.

(* ===================================================================== *)
(** ** Dispatcher (TelegramMulti.node.ts) *)
(* ===================================================================== *)

(** [v === 'literal'] *)
Definition strictEq (v : value) (literal : string) : bool :=
match v with
| VStr s => String.eqb s literal
| _ => false
end.

(** The first statements of the [try] block: read the authentication method
    and, by the [switch] on it, the bot token. *)
Definition resolveToken (this : IExecuteFunctions) (i : nat) : M value :=
let* authMethod := host (getNodeParameter this "authMethod" i) in
if strictEq authMethod "credentials" then
  let* credentials := host (getCredentials this "telegramMultiApi" i) in
  ret (get credentials "accessToken")
else if strictEq authMethod "environment" then
  host (getNodeParameter this "envToken" i)
else if strictEq authMethod "direct" then
  host (getNodeParameter this "directToken" i)
else throw (UnknownAuthMethod authMethod i).

(** The body of the [try] block of [execute] for the item of index [i]; its
    result is [responseData]. *)
Definition processItem (this : IExecuteFunctions) (i : nat)
  : M (gmap string value) :=
let* botToken := resolveToken this i in
if negb (Js.truthy botToken) then throw (MissingToken (Some i))
else if negb (validateBotToken botToken) then throw (InvalidTokenFormat (Some i))
else
  let* resource := host (getNodeParameter this "resource" i) in
  let* operation := host (getNodeParameter this "operation" i) in
  let* chatId := host (getNodeParameter this "chatId" i) in
  let* additionalFields := host (getNodeParameter this "additionalFields" i) in
  let responseData : gmap string value := ∅ in
  if strictEq resource "message" then
    if strictEq operation "send" then
      let* text := host (getNodeParameter this "text" i) in
      sendMessage this chatId text botToken additionalFields
    else if strictEq operation "edit" then
      let* text := host (getNodeParameter this "text" i) in
      let* messageId := host (getNodeParameter this "messageId" i) in
      editMessage this chatId messageId text botToken additionalFields
    else if strictEq operation "delete" then
      let* messageId := host (getNodeParameter this "messageId" i) in
      deleteMessage this chatId messageId botToken
    else ret responseData
  else if strictEq resource "photo" then
    if strictEq operation "send" then
      let* photo := host (getNodeParameter this "photo" i) in
      sendPhoto this chatId photo botToken additionalFields
    else ret responseData
  else if strictEq resource "document" then
    if strictEq operation "send" then
      let* document := host (getNodeParameter this "document" i) in
      sendDocument this chatId document botToken additionalFields
    else ret responseData
  else if strictEq resource "chat" then
    if strictEq operation "get" then
      getChat this chatId botToken
    else if strictEq operation "getAdministrators" then
      getChatAdministrators this chatId botToken
    else ret responseData
  else ret responseData.

(** The record pushed for item [i] after a success and after a failure. *)
Definition successRecord (i : nat) (responseData : gmap string value)
  : INodeExecutionData :=
{| json_ := responseData; pairedItem := i |}.

Definition errorRecord (i : nat) (error : Error) : INodeExecutionData :=
{| json_ := {[ "error" := VStr (errorText error) ]}; pairedItem := i |}.

(** The [for] loop of [execute] from index [i] on, with [n] items left. *)
Fixpoint loop (this : IExecuteFunctions) (n i : nat)
    (returnData : list INodeExecutionData) : M (list INodeExecutionData) :=
match n with
| O => ret returnData
| S n' =>
    fun tr =>
      match processItem this i tr with
      | (inr responseData, tr') =>
          loop this n' (S i) (returnData ++ [successRecord i responseData])%list tr'
      | (inl error, tr') =>
          if continueOnFail this
          then loop this n' (S i) (returnData ++ [errorRecord i error])%list tr'
          else (inl error, tr')
      end
end.

Definition execute (this : IExecuteFunctions)
  : M (list (list INodeExecutionData)) :=
let items := getInputData this in
let* returnData := loop this (List.length items) 0 [] in
ret [returnData].

(* ===================================================================== *)
(** ** Shapes named by the specification *)
(* ===================================================================== *)

(** A bot token: 8 to 10 digits, a colon, 30 to 45 characters among letters,
    digits, underscore and hyphen. *)
Definition TokenShape (s : string) : Prop :=
exists botId secret,
  s = botId +:+ String ":" secret
  /\ (8 <= String.length botId <= 10)%nat /\ all digit botId = true
  /\ (30 <= String.length secret <= 45)%nat /\ all wordOrHyphen secret = true.

(** An integer-like string: an optional minus sign and one or more digits. *)
Definition IntegerLike (s : string) : Prop :=
exists digits,
  (s = digits \/ s = String "-" digits)
  /\ digits <> "" /\ all digit digits = true.

(** A public username: [@], a letter, then 4 to 31 letters, digits or
    underscores. *)
Definition UsernameLike (s : string) : Prop :=
exists first rest,
  s = String "@" (String first rest)
  /\ letter first = true
  /\ (4 <= String.length rest <= 31)%nat /\ all word rest = true.

(** The chat identifiers of the data model: integers, integer-like strings
    and usernames. *)
Definition ChatIdShape (v : value) : Prop :=
(exists n, v = VNum n /\ Js.isInteger n = true)
\/ (exists s, v = VStr s /\ IntegerLike s)
\/ (exists s, v = VStr s /\ UsernameLike s).

(** A number that [if (n)] takes for true: neither zero nor NaN. *)
Definition NonZeroNumber (n : number) : Prop :=
n <> NaN /\ Js.isZero n = false.

(** The string contains the character. *)
Fixpoint contains (c : ascii) (s : string) : bool :=
match s with
| EmptyString => false
| String a s' => Ascii.eqb a c || contains c s'
end.

(** The errors that [telegramApiRequest] can end with. *)
Definition RequestStageError (e : Error) : Prop :=
match e with
| MissingToken None | InvalidTokenFormat None
| ApiError _ | ConnectionRefused | Timeout | RequestFailed _ => True
| _ => False
end.

(** A message identifier that passes the check of [editMessage] and
    [deleteMessage]: a number other than 0 and NaN. *)
Definition PassesMessageIdCheck (messageId : value) : Prop :=
exists n, messageId = VNum n /\ NonZeroNumber n.

(** What the text checks make of a call with result [r], sanitized text [st]
    and starting trace [tr], when passing them leads to [next]: [EmptyText]
    exactly for the empty text, [TextTooLong] exactly above 4096 characters,
    both before any transport call, and [next] otherwise. *)
Definition TextChecked (st : string) (tr : Trace)
    (r next : (Error + gmap string value) * Trace) : Prop :=
(fst r = inl EmptyText <-> st = "")
/\ ((exists n, fst r = inl (TextTooLong n)) <-> (4096 < String.length st)%nat)
/\ (st = "" -> r = (inl EmptyText, tr))
/\ ((4096 < String.length st)%nat ->
    r = (inl (TextTooLong (String.length st)), tr))
/\ (st <> "" -> (String.length st <= 4096)%nat -> r = next).

(** The seven resource and operation pairs that [execute] routes. *)
Definition handled (resource operation : value) : bool :=
(strictEq resource "message"
   && (strictEq operation "send" || strictEq operation "edit"
       || strictEq operation "delete"))
|| (strictEq resource "photo" && strictEq operation "send")
|| (strictEq resource "document" && strictEq operation "send")
|| (strictEq resource "chat"
      && (strictEq operation "get" || strictEq operation "getAdministrators")).

(** *** The batch, item by item *)

(** The trace when the item of index [i] starts: the items before it have
    been processed in order, starting from [tr]. *)
Fixpoint traceBefore (this : IExecuteFunctions) (tr : Trace) (i : nat) : Trace :=
match i with
| O => tr
| S j => snd (processItem this j (traceBefore this tr j))
end.

(** What processing the item of index [i] ends with. *)
Definition outcome (this : IExecuteFunctions) (tr : Trace) (i : nat)
  : Error + gmap string value :=
fst (processItem this i (traceBefore this tr i)).

(** The record that an outcome contributes at position [i]. *)
Definition recordOf (i : nat) (r : Error + gmap string value)
  : INodeExecutionData :=
match r with
| inr responseData => successRecord i responseData
| inl error => errorRecord i error
end.

Definition isSuccess (r : Error + gmap string value) : bool :=
match r with inr _ => true | inl _ => false end.

(** *** A host to run the examples on *)

Definition sampleToken : value := VStr "123456789:abcDEF012345678901234567890123".

Definition okResponse : gmap string value :=
{[ "ok" := VBool true;
   "result" := VObj {[ "message_id" := VNum (Js.ofZ 1) ]} ]}.

(** A host with [n] items whose parameters are read from [params], whose
    stored credential is [sampleToken] and whose transport gives [answer] to
    every request. *)
Definition hostAnswering (answer : Exception + gmap string value)
    (params : nat -> gmap string value) (n : nat) (continue : bool)
  : IExecuteFunctions :=
{| getInputData := repeat ∅ n;
   getNodeParameter name i :=
     match params i !! name with
     | Some v => inr v
     | None =>
         inl {| exc_name := "Error"; exc_code := None;
                exc_message := "Could not get parameter" |}
     end;
   getCredentials _ _ := inr {[ "accessToken" := sampleToken ]};
   continueOnFail := continue;
   helpers_request _ _ := answer |}.

(** The host whose transport answers [okResponse]. *)
Definition sampleHost : (nat -> gmap string value) -> nat -> bool -> IExecuteFunctions :=
hostAnswering (inr okResponse).

Definition chatNotFound : gmap string value :=
{[ "ok" := VBool false; "error_code" := VNum (Js.ofZ 400);
   "description" := VStr "chat not found" ]}.

Definition refused : Exception :=
{| exc_name := "Error"; exc_code := Some "ECONNREFUSED";
   exc_message := "connect ECONNREFUSED 149.154.167.220:443" |}.

(** One item that sends ["Hello"] to [chatId] with a directly given token. *)
Definition sampleItem (chatId : string) : gmap string value :=
{[ "authMethod" := VStr "direct"; "directToken" := sampleToken;
   "resource" := VStr "message"; "operation" := VStr "send";
   "chatId" := VStr chatId; "additionalFields" := VObj ∅;
   "text" := VStr "Hello" ]}.

(** A batch whose second item has an invalid chat identifier. *)
Definition sampleBatch (i : nat) : gmap string value :=
match i with
| 1 => sampleItem "not a chat"
| _ => sampleItem "@validchannel"
end.

(** An item whose resource is none of the four that [execute] knows. *)
Definition unroutedItem : gmap string value :=
<[ "resource" := VStr "sticker" ]> (sampleItem "@validchannel").

(** The number of characters that [trim] never removes. *)
Fixpoint inkCount (s : string) : nat :=
match s with
| EmptyString => 0
| String a s' => (if isWhiteSpace a then 0 else 1) + inkCount s'
end.

(** *** Shapes for the sanitizer *)

(** The number of occurrences of a character. *)
Fixpoint count (c : ascii) (s : string) : nat :=
match s with
| EmptyString => 0
| String a s' => (if Ascii.eqb a c then 1 else 0) + count c s'
end.

(** What one character becomes: its entity, or itself. *)
Definition escapeChar (c : ascii) : string :=
if Ascii.eqb c "&" then "&amp;"
else if Ascii.eqb c "<" then "&lt;"
else if Ascii.eqb c ">" then "&gt;"
else if Ascii.eqb c quote then "&quot;"
else if Ascii.eqb c apostrophe then "&#x27;"
else String c "".

(** Escaping in one pass, character by character. *)
Fixpoint escapeOnce (s : string) : string :=
match s with
| EmptyString => EmptyString
| String c s' => escapeChar c +:+ escapeOnce s'
end.

(** One of the five characters that [sanitizeText] replaces. *)
Definition isSpecial (c : ascii) : bool :=
Ascii.eqb c "&" || Ascii.eqb c "<" || Ascii.eqb c ">"
|| Ascii.eqb c quote || Ascii.eqb c apostrophe.

Definition firstChar (s : string) : option ascii :=
match s with
| EmptyString => None
| String c _ => Some c
end.

Fixpoint lastChar (s : string) : option ascii :=
match s with
| EmptyString => None
| String c EmptyString => Some c
| String _ s' => lastChar s'
end.

(** Neither the first nor the last character is white space. *)
Definition Trimmed (s : string) : Prop :=
(forall c, firstChar s = Some c -> isWhiteSpace c = false)
/\ (forall c, lastChar s = Some c -> isWhiteSpace c = false).

(** *** Shapes for the operations *)

(** The errors that come from the transport or from its answer. *)
Definition TransportError (e : Error) : Prop :=
match e with
| ApiError _ | ConnectionRefused | Timeout | RequestFailed _ => True
| _ => False
end.

(** The errors of the checks that an operation makes on its own arguments. *)
Definition ArgumentError (e : Error) : Prop :=
match e with
| InvalidChatId _ | EmptyText | TextTooLong _ | InvalidMessageId
| MissingMedia _ | CaptionTooLong _ _ => True
| _ => False
end.

(** The error of [telegramApiRequest] for a token that fails its checks. *)
Definition tokenError (botToken : value) : Error :=
if Js.truthy botToken then InvalidTokenFormat None else MissingToken None.

(** The request that [telegramApiRequest] hands to the transport. *)
Definition requestOptions (method endpoint : string)
    (body qs headers : gmap string value) (botToken : value)
  : IHttpRequestOptions :=
{| method := method;
   headers := assign {[ "Content-Type" := VStr "application/json" ]} headers;
   body := body;
   qs := qs;
   url := "https://api.telegram.org/bot" +:+ Js.toString botToken +:+ endpoint;
   json := true;
   timeout := 30000 |}.

(** What an operation with result [r], started at trace [tr], did with the
    transport: either it failed on an argument or on the token without
    calling it, or it called it once, with a [POST] to [endpoint] under a
    valid token and for a valid chat identifier, and ended with the response
    or with an error of the transport. *)
Definition Disciplined (tr : Trace) (chatId botToken : value) (endpoint : string)
    (r : (Error + gmap string value) * Trace) : Prop :=
(snd r = tr
 /\ exists e, fst r = inl e
      /\ (ArgumentError e
          \/ (validateBotToken botToken = false /\ e = tokenError botToken)))
\/ (exists options,
      snd r = (tr ++ [options])%list
      /\ validateChatId chatId = true
      /\ validateBotToken botToken = true
      /\ method options = "POST"
      /\ url options
         = "https://api.telegram.org/bot" +:+ Js.toString botToken +:+ endpoint
      /\ ((exists response,
             fst r = inr response /\ Js.truthy (get response "ok") = true)
          \/ exists e, fst r = inl e /\ TransportError e)).

(** The message-identifier test of [editMessage] and [deleteMessage], as a
    boolean: the identifier is truthy and a number. *)
Definition messageIdAccepted (messageId : value) : bool :=
Js.truthy messageId && type_eqb (Js.typeof messageId) Js.TNumber.

(** The errors that processing the item of index [i] can end with: an error
    of the host, an error of [execute] itself carrying the index [i], an
    argument error of an operation or an error of the transport; never a
    token error without an index. *)
Definition ItemError (i : nat) (e : Error) : Prop :=
match e with
| HostError _ => True
| UnknownAuthMethod _ j | MissingToken (Some j) | InvalidTokenFormat (Some j) => j = i
| MissingToken None | InvalidTokenFormat None => False
| _ => ArgumentError e \/ TransportError e
end.

(** What processing the item of index [i], with result [r] and starting
    trace [tr], did with the transport: either it made no request and ended
    with an item error or with the empty object, or it made one [POST]
    request and ended with a response whose [ok] is truthy or with an error
    of the transport. *)
Definition ItemDisciplined (i : nat) (tr : Trace)
    (r : (Error + gmap string value) * Trace) : Prop :=
(snd r = tr
 /\ ((exists e, fst r = inl e /\ ItemError i e /\ ~ TransportError e)
     \/ fst r = inr ∅))
\/ (exists options,
      snd r = (tr ++ [options])%list
      /\ method options = "POST"
      /\ ((exists response,
             fst r = inr response /\ Js.truthy (get response "ok") = true)
          \/ exists e, fst r = inl e /\ TransportError e)).

(** The three literals that the [switch] on the authentication method knows. *)
Definition knownAuthMethod (authMethod : value) : bool :=
strictEq authMethod "credentials" || strictEq authMethod "environment"
|| strictEq authMethod "direct".

(* ===================================================================== *)
(** ** Strings *)
(* ===================================================================== *)

#[local] Arguments append !s1 s2 : simpl nomatch.

Lemma app_empty_r (s : string) : s +:+ "" = s.
Proof. induction s as [|c s IH]; simpl; [reflexivity | now rewrite IH]. Qed.

Lemma app_assoc_str (a b c : string) : (a +:+ b) +:+ c = a +:+ (b +:+ c).
Proof. induction a as [|x a IH]; simpl; [reflexivity | now rewrite IH]. Qed.

Lemma length_app_str (a b : string) :
  String.length (a +:+ b) = (String.length a + String.length b)%nat.
Proof. induction a as [|x a IH]; simpl; [reflexivity | now rewrite IH]. Qed.

Lemma app_eq_empty (a b : string) : a +:+ b = "" -> a = "" /\ b = "".
Proof. destruct a; simpl; [auto | discriminate]. Qed.

Lemma all_app p (a b : string) : all p (a +:+ b) = all p a && all p b.
Proof.
  induction a as [|x a IH]; simpl; [reflexivity|].
  now rewrite IH, andb_assoc.
Qed.

(* ===================================================================== *)
(** ** Correctness of the matcher *)
(* ===================================================================== *)

Lemma matches_cat_inv r1 r2 s :
  Matches (Cat r1 r2) s ->
  exists s1 s2, s = s1 +:+ s2 /\ Matches r1 s1 /\ Matches r2 s2.
Proof. intros H. inversion H; subst. eauto. Qed.

Lemma matches_alt_inv r1 r2 s :
  Matches (Alt r1 r2) s -> Matches r1 s \/ Matches r2 s.
Proof. intros H. inversion H; subst; auto. Qed.

Lemma matches_eps_inv s : Matches Eps s -> s = "".
Proof. intros H. now inversion H. Qed.

Lemma matches_class_inv p s :
  Matches (Class p) s -> exists c, s = String c "" /\ p c = true.
Proof. intros H. inversion H; subst. eauto. Qed.

Lemma nullable_spec r : nullable r = true <-> Matches r "".
Proof.
  induction r as [| |p|r1 IH1 r2 IH2|r1 IH1 r2 IH2|r IH]; simpl.
  - split; [discriminate | intros H; inversion H].
  - split; [constructor | reflexivity].
  - split; [discriminate | intros H; inversion H].
  - rewrite andb_true_iff, IH1, IH2. split.
    + intros [H1 H2]. exact (MCat _ _ "" "" H1 H2).
    + intros H. apply matches_cat_inv in H as (s1 & s2 & E & H1 & H2).
      symmetry in E. apply app_eq_empty in E as [-> ->]. auto.
  - rewrite orb_true_iff, IH1, IH2. split.
    + intros [H|H]; [now apply MAltL | now apply MAltR].
    + apply matches_alt_inv.
  - split; [constructor | reflexivity].
Qed.

Lemma star_cons r c s :
  Matches (Star r) (String c s) ->
  exists s1 s2, s = s1 +:+ s2 /\ Matches r (String c s1) /\ Matches (Star r) s2.
Proof.
  remember (Star r) as r' eqn:Er. remember (String c s) as t eqn:Et.
  intros H. revert c s Et.
  induction H as [| | | | | |r0 s1 s2 H1 _ H2 IH2]; try discriminate.
  intros c s Et. injection Er as ->.
  destruct s1 as [|a s1]; simpl in Et.
  - now apply IH2.
  - injection Et as -> <-. now exists s1, s2.
Qed.

Lemma deriv_spec r : forall c s, Matches (deriv c r) s <-> Matches r (String c s).
Proof.
  induction r as [| |p|r1 IH1 r2 IH2|r1 IH1 r2 IH2|r IH]; intros c s; simpl.
  - split; intros H; inversion H.
  - split; intros H; inversion H.
  - destruct (p c) eqn:Ep; split; intros H.
    + apply matches_eps_inv in H as ->. now constructor.
    + apply matches_class_inv in H as (a & E & _). injection E as _ ->. constructor.
    + inversion H.
    + apply matches_class_inv in H as (a & E & Ha). injection E as <- _. congruence.
  - assert (L : Matches (Cat (deriv c r1) r2) s -> Matches (Cat r1 r2) (String c s)).
    { intros H. apply matches_cat_inv in H as (s1 & s2 & -> & H1 & H2).
      apply IH1 in H1. exact (MCat _ _ _ _ H1 H2). }
    assert (R : Matches (Cat r1 r2) (String c s) ->
                Matches (Cat (deriv c r1) r2) s
                \/ (nullable r1 = true /\ Matches (deriv c r2) s)).
    { intros H. apply matches_cat_inv in H as (s1 & s2 & E & H1 & H2).
      destruct s1 as [|a s1]; simpl in E.
      - subst s2. right. split; [now apply nullable_spec | now apply IH2].
      - injection E as <- ->. left. apply MCat; [now apply IH1 | assumption]. }
    destruct (nullable r1) eqn:En; split; intros H.
    + apply matches_alt_inv in H as [H|H]; [now apply L|].
      apply (MCat _ _ "" (String c s)); [now apply nullable_spec | now apply IH2].
    + destruct (R H) as [H'|[_ H']]; [now apply MAltL | now apply MAltR].
    + now apply L.
    + destruct (R H) as [H'|[E _]]; [assumption | discriminate].
  - split; intros H; apply matches_alt_inv in H as [H|H].
    + apply MAltL. now apply IH1.
    + apply MAltR. now apply IH2.
    + apply MAltL. now apply IH1.
    + apply MAltR. now apply IH2.
  - split; intros H.
    + apply matches_cat_inv in H as (s1 & s2 & -> & H1 & H2).
      apply IH in H1. exact (MStarS _ _ _ H1 H2).
    + apply star_cons in H as (s1 & s2 & -> & H1 & H2).
      apply MCat; [now apply IH | assumption].
Qed.

(** [test] decides membership in the language of the pattern. *)
Lemma test_spec s : forall r, test r s = true <-> Matches r s.
Proof.
  induction s as [|c s IH]; intros r; simpl.
  - apply nullable_spec.
  - rewrite IH. apply deriv_spec.
Qed.

(** *** The languages of the patterns in use *)

Lemma matches_class p s :
  Matches (Class p) s <-> exists c, s = String c "" /\ p c = true.
Proof.
  split; [apply matches_class_inv|].
  intros (c & -> & H). now constructor.
Qed.

Lemma matches_chr c s : Matches (Chr c) s <-> s = String c "".
Proof.
  unfold Chr. rewrite matches_class. split.
  - intros (a & -> & H). apply Ascii.eqb_eq in H. now subst.
  - intros ->. exists c. split; [reflexivity | apply Ascii.eqb_refl].
Qed.

Lemma matches_class_cat p r s :
  Matches (Cat (Class p) r) s <->
  exists c s', s = String c s' /\ p c = true /\ Matches r s'.
Proof.
  split.
  - intros H. apply matches_cat_inv in H as (s1 & s2 & -> & H1 & H2).
    apply matches_class_inv in H1 as (c & -> & Hc). now exists c, s2.
  - intros (c & s' & -> & Hc & H).
    exact (MCat _ _ (String c "") s' (MClass p c Hc) H).
Qed.

Lemma matches_times_class p n : forall s,
  Matches (Times n (Class p)) s <-> String.length s = n /\ all p s = true.
Proof.
  induction n as [|n IH]; intros s; simpl.
  - split.
    + intros H. apply matches_eps_inv in H as ->. auto.
    + intros [H _]. destruct s; [constructor | discriminate].
  - rewrite matches_class_cat. split.
    + intros (c & s' & -> & Hc & H). apply IH in H as [<- H]. simpl.
      now rewrite Hc, H.
    + intros [Hl Ha]. destruct s as [|c s']; [discriminate|].
      simpl in *. apply andb_true_iff in Ha as [Hc Ha].
      exists c, s'. rewrite IH. auto.
Qed.

Lemma matches_upto_class p n : forall s,
  Matches (Upto n (Class p)) s <-> (String.length s <= n)%nat /\ all p s = true.
Proof.
  induction n as [|n IH]; intros s; simpl.
  - split.
    + intros H. apply matches_eps_inv in H as ->. auto.
    + intros [H _]. destruct s; [constructor | simpl in H; lia].
  - unfold Opt. split.
    + intros H. apply matches_alt_inv in H as [H|H].
      * apply matches_eps_inv in H as ->. simpl. split; [lia | reflexivity].
      * apply matches_class_cat in H as (c & s' & -> & Hc & H).
        apply IH in H as [Hl H]. simpl. rewrite Hc, H. split; [lia | reflexivity].
    + intros [Hl Ha]. destruct s as [|c s']; [apply MAltL; constructor|].
      simpl in *. apply andb_true_iff in Ha as [Hc Ha].
      apply MAltR, matches_class_cat. exists c, s'. rewrite IH.
      repeat split; [assumption | lia | assumption].
Qed.

Lemma split_at (n : nat) : forall s,
  (n <= String.length s)%nat ->
  exists a b, s = a +:+ b /\ String.length a = n.
Proof.
  induction n as [|n IH]; intros s H.
  - now exists "", s.
  - destruct s as [|c s]; simpl in H; [lia|].
    destruct (IH s) as (a & b & -> & Ha); [lia|].
    exists (String c a), b. simpl. now rewrite Ha.
Qed.

Lemma matches_between_class p m n s :
  (m <= n)%nat ->
  Matches (Between m n (Class p)) s <->
  (m <= String.length s <= n)%nat /\ all p s = true.
Proof.
  intros Hmn. unfold Between. split.
  - intros H. apply matches_cat_inv in H as (a & b & -> & Ha & Hb).
    apply matches_times_class in Ha as [La Ha].
    apply matches_upto_class in Hb as [Lb Hb].
    rewrite length_app_str, all_app, Ha, Hb. split; [lia | reflexivity].
  - intros [Hl Ha]. destruct (split_at m s) as (a & b & -> & La); [lia|].
    rewrite length_app_str in Hl. rewrite all_app in Ha.
    apply andb_true_iff in Ha as [Ha Hb].
    apply MCat.
    + apply matches_times_class. auto.
    + apply matches_upto_class. split; [lia | assumption].
Qed.

Lemma matches_star_class p : forall s,
  Matches (Star (Class p)) s <-> all p s = true.
Proof.
  intros s. split.
  - remember (Star (Class p)) as r eqn:Er. intros H.
    induction H as [| | | | | |r0 s1 s2 H1 _ H2 IH2]; try discriminate.
    + reflexivity.
    + injection Er as ->. apply matches_class_inv in H1 as (c & -> & Hc).
      simpl. rewrite Hc. now apply IH2.
  - induction s as [|c s IH]; simpl; intros H; [constructor|].
    apply andb_true_iff in H as [Hc H].
    exact (MStarS _ (String c "") s (MClass p c Hc) (IH H)).
Qed.

Lemma matches_plus_class p s :
  Matches (Plus (Class p)) s <-> s <> "" /\ all p s = true.
Proof.
  unfold Plus. rewrite matches_class_cat. split.
  - intros (c & s' & -> & Hc & H). apply matches_star_class in H.
    simpl. rewrite Hc, H. split; [discriminate | reflexivity].
  - intros [Hn Ha]. destruct s as [|c s']; [congruence|].
    simpl in Ha. apply andb_true_iff in Ha as [Hc Ha].
    exists c, s'. rewrite matches_star_class. auto.
Qed.

Lemma tokenRegex_language s : Matches tokenRegex s <-> TokenShape s.
Proof.
  unfold tokenRegex, TokenShape. split.
  - intros H. apply matches_cat_inv in H as (botId & t & -> & H1 & H).
    apply matches_cat_inv in H as (colon & secret & -> & H2 & H3).
    apply matches_chr in H2 as ->.
    apply matches_between_class in H1 as [L1 A1]; [|lia].
    apply matches_between_class in H3 as [L3 A3]; [|lia].
    exists botId, secret. auto.
  - intros (botId & secret & -> & L1 & A1 & L3 & A3).
    apply MCat; [apply matches_between_class; auto; lia|].
    apply (MCat _ _ (String ":" "") secret).
    + now apply matches_chr.
    + apply matches_between_class; auto; lia.
Qed.

Lemma numericRegex_language s : Matches numericRegex s <-> IntegerLike s.
Proof.
  unfold numericRegex, IntegerLike, Opt. split.
  - intros H. apply matches_cat_inv in H as (sign & digits & -> & H1 & H2).
    apply matches_plus_class in H2 as [Hn Ha]. exists digits.
    apply matches_alt_inv in H1 as [H1|H1].
    + apply matches_eps_inv in H1 as ->. auto.
    + apply matches_chr in H1 as ->. auto.
  - intros (digits & [->| ->] & Hn & Ha).
    + apply (MCat _ _ "" digits); [apply MAltL; constructor|].
      now apply matches_plus_class.
    + apply (MCat _ _ (String "-" "") digits); [apply MAltR; now apply matches_chr|].
      now apply matches_plus_class.
Qed.

Lemma usernameRegex_language s : Matches usernameRegex s <-> UsernameLike s.
Proof.
  unfold usernameRegex, UsernameLike. split.
  - intros H. apply matches_cat_inv in H as (at_ & t & -> & H1 & H).
    apply matches_chr in H1 as ->.
    apply matches_class_cat in H as (first & rest & -> & Hf & H).
    apply matches_between_class in H as [L A]; [|lia].
    exists first, rest. auto.
  - intros (first & rest & -> & Hf & L & A).
    apply (MCat _ _ (String "@" "") (String first rest)); [now apply matches_chr|].
    apply matches_class_cat. exists first, rest.
    rewrite matches_between_class; auto; lia.
Qed.

(* ===================================================================== *)
(** ** Token and chat identifier validation *)
(* ===================================================================== *)

Lemma tokenShape_not_empty : ~ TokenShape "".
Proof.
  intros (botId & secret & E & _). symmetry in E.
  apply app_eq_empty in E as [_ E]. discriminate.
Qed.

(** C8. [validateBotToken] returns true exactly for the strings of the shape
    [^\d{8,10}:[A-Za-z0-9_-]{30,45}$]: 8 to 10 digits, a colon, 30 to 45
    characters among letters, digits, underscore and hyphen.  For every other
    input (undefined, null, a value that is not a string, the empty string, a
    string of another shape) it returns false. *)
Theorem validateBotToken_spec (token : value) :
  validateBotToken token = true <-> exists s, token = VStr s /\ TokenShape s.
Proof.
  unfold validateBotToken.
  destruct token as [| |b|n|s|o];
    try (split; [try (destruct b); try (destruct n as [|[]|m e]; simpl;
                  try destruct (m =? 0)%Z); simpl; discriminate
                | intros (s' & E & _); discriminate]).
  cbn [Js.truthy Js.typeof type_eqb Js.toString negb orb].
  destruct (String.eqb_spec s "") as [->|Hs]; cbn [negb orb].
  - split; [discriminate|].
    intros (s' & E & H). injection E as <-. now apply tokenShape_not_empty in H.
  - rewrite test_spec, tokenRegex_language. split.
    + intros H. now exists s.
    + intros (s' & E & H). now injection E as <-.
Qed.

Lemma integerLike_not_empty : ~ IntegerLike "".
Proof. intros (digits & [E|E] & Hn & _); [congruence | discriminate]. Qed.

Lemma usernameLike_prefix s : UsernameLike s -> String.prefix "@" s = true.
Proof.
  intros (first & rest & -> & _). simpl.
  destruct (ascii_dec "@" "@"); [reflexivity | congruence].
Qed.

(** What [validateChatId] answers on each kind of value. *)
Lemma validateChatId_number n :
  validateChatId (VNum n) = true <-> NonZeroNumber n.
Proof.
  unfold validateChatId, NonZeroNumber.
  destruct n as [|neg|m e]; cbn [Js.truthy Js.isZero negb].
  - split; [discriminate | intros [H _]; congruence].
  - cbn. split; [intros _; split; [discriminate | reflexivity] | reflexivity].
  - destruct (m =? 0)%Z; cbn.
    + split; [discriminate | intros [_ H]; discriminate].
    + split; [intros _; split; [discriminate | reflexivity] | reflexivity].
Qed.

Lemma validateChatId_string s :
  validateChatId (VStr s) = true <-> IntegerLike s \/ UsernameLike s.
Proof.
  unfold validateChatId.
  cbn [Js.truthy Js.typeof type_eqb Js.toString negb orb andb].
  destruct (String.eqb_spec s "") as [->|Hs]; cbn [negb].
  - split; [discriminate|].
    intros [H|H]; [now apply integerLike_not_empty in H|].
    apply usernameLike_prefix in H. discriminate.
  - destruct (test numericRegex s) eqn:En.
    + apply test_spec, numericRegex_language in En. tauto.
    + assert (Hn : ~ IntegerLike s).
      { rewrite <- numericRegex_language, <- test_spec. congruence. }
      destruct (String.prefix "@" s) eqn:Ep.
      * rewrite test_spec, usernameRegex_language. tauto.
      * split; [discriminate|].
        intros [H|H]; [contradiction|].
        apply usernameLike_prefix in H. congruence.
Qed.

Lemma validateChatId_other v :
  Js.isNumber v = false -> Js.isString v = false -> validateChatId v = false.
Proof.
  destruct v as [| |[]|n|s|o]; try discriminate; intros _ _;
    vm_compute; reflexivity.
Qed.

(** C1, as the code has it.  [validateChatId] returns true exactly for
    - every number other than 0 and NaN (integer or not),
    - every integer-like string (an optional minus sign, then digits),
    - every string made of [@], a letter and 4 to 31 further letters, digits
      or underscores;
    for every other input, the number 0 included, it returns false. *)
Theorem validateChatId_spec (chatId : value) :
  validateChatId chatId = true <->
    (exists n, chatId = VNum n /\ NonZeroNumber n)
    \/ (exists s, chatId = VStr s /\ IntegerLike s)
    \/ (exists s, chatId = VStr s /\ UsernameLike s).
Proof.
  destruct chatId as [| |b|n|s|o].
  1-3, 6: (rewrite validateChatId_other by reflexivity;
           split; [discriminate | intros [(?&E&_)|[(?&E&_)|(?&E&_)]]; discriminate]).
  - rewrite validateChatId_number. split.
    + intros H. left. now exists n.
    + intros [(n' & E & H)|[(?&E&_)|(?&E&_)]]; try discriminate.
      now injection E as <-.
  - rewrite validateChatId_string. split.
    + intros [H|H]; [right; left | right; right]; now exists s.
    + intros [(?&E&_)|[(s' & E & H)|(s' & E & H)]]; try discriminate;
        injection E as <-; auto.
Qed.

(** C1, as the claim states it, fails in both directions: the integer 0 is
    rejected, and the number 1.5, which is none of the three accepted shapes,
    is accepted. *)
Lemma validateChatId_zero_and_fraction :
  (ChatIdShape (VNum (Js.ofZ 0)) /\ validateChatId (VNum (Js.ofZ 0)) = false)
  /\ (~ ChatIdShape (VNum (Finite 3 (-1)))
      /\ validateChatId (VNum (Finite 3 (-1))) = true).
Proof.
  split; split.
  - left. exists (Js.ofZ 0). split; reflexivity.
  - reflexivity.
  - intros [(n & E & H)|[(?&E&_)|(?&E&_)]]; try discriminate.
    injection E as <-. vm_compute in H. discriminate.
  - reflexivity.
Qed.

(** The examples of the specification. *)
Example validateChatId_examples :
  validateChatId (VStr "-1009876543210") = true
  /\ validateChatId (VStr "@ab") = false
  /\ validateChatId (VStr "@News_Channel1") = true
  /\ validateChatId (VStr "not a chat") = false.
Proof. repeat split; vm_compute; reflexivity. Qed.

(* ===================================================================== *)
(** ** Sanitizer *)
(* ===================================================================== *)

Lemma inkCount_app a b : inkCount (a +:+ b) = (inkCount a + inkCount b)%nat.
Proof. induction a as [|c a IH]; simpl; [reflexivity | rewrite IH; lia]. Qed.

Lemma inkCount_trimStart s : inkCount (trimStart s) = inkCount s.
Proof.
  induction s as [|c s IH]; simpl; [reflexivity|].
  destruct (isWhiteSpace c) eqn:E; simpl; [assumption | now rewrite E].
Qed.

Lemma inkCount_trimEnd s : inkCount (trimEnd s) = inkCount s.
Proof.
  induction s as [|c s IH]; simpl; [reflexivity|].
  destruct (trimEnd s) as [|a t]; simpl in *.
  - rewrite <- IH. destruct (isWhiteSpace c) eqn:E; simpl; rewrite ?E; reflexivity.
  - now rewrite IH.
Qed.

Lemma inkCount_trim s : inkCount (trim s) = inkCount s.
Proof. unfold trim. now rewrite inkCount_trimEnd, inkCount_trimStart. Qed.

Lemma inkCount_le_length s : (inkCount s <= String.length s)%nat.
Proof. induction s as [|c s IH]; simpl; [lia | destruct (isWhiteSpace c); lia]. Qed.

(** Replacing an inked character by a string with ink never loses ink, and
    gains the surplus of the replacement once per occurrence. *)
Lemma inkCount_replaceAll c by_ s :
  isWhiteSpace c = false -> (1 <= inkCount by_)%nat ->
  (inkCount s <= inkCount (replaceAll c by_ s))%nat
  /\ (contains c s = true ->
      (inkCount s + (inkCount by_ - 1) <= inkCount (replaceAll c by_ s))%nat).
Proof.
  intros Hc Hby. induction s as [|a s [IH1 IH2]]; simpl.
  - split; [lia | discriminate].
  - destruct (Ascii.eqb_spec a c) as [->|Hne]; simpl.
    + rewrite Hc, inkCount_app. split; [lia | intros _; lia].
    + split; [lia | intros H; specialize (IH2 H); lia].
Qed.

Lemma inkCount_escapeHtml s :
  contains "&" s = true -> (inkCount s + 4 <= inkCount (escapeHtml s))%nat.
Proof.
  intros H. unfold escapeHtml.
  pose proof (inkCount_replaceAll "&" "&amp;" s eq_refl ltac:(vm_compute; lia)) as [_ H1].
  specialize (H1 H). change (inkCount "&amp;") with 5%nat in H1.
  set (s1 := replaceAll "&" "&amp;" s) in *.
  pose proof (inkCount_replaceAll "<" "&lt;" s1 eq_refl ltac:(vm_compute; lia)) as [H2 _].
  set (s2 := replaceAll "<" "&lt;" s1) in *.
  pose proof (inkCount_replaceAll ">" "&gt;" s2 eq_refl ltac:(vm_compute; lia)) as [H3 _].
  set (s3 := replaceAll ">" "&gt;" s2) in *.
  pose proof (inkCount_replaceAll quote "&quot;" s3 eq_refl ltac:(vm_compute; lia)) as [H4 _].
  set (s4 := replaceAll quote "&quot;" s3) in *.
  pose proof (inkCount_replaceAll apostrophe "&#x27;" s4 eq_refl ltac:(vm_compute; lia)) as [H5 _].
  lia.
Qed.

Lemma sanitizeText_string s :
  s <> "" -> sanitizeText (VStr s) = trim (escapeHtml s).
Proof.
  intros H. unfold sanitizeText. cbn [Js.truthy Js.typeof type_eqb Js.toString].
  destruct (String.eqb_spec s ""); [contradiction | reflexivity].
Qed.

(** The sanitizer is total: an input that is not a non-empty string gives
    the empty string. *)
Lemma sanitizeText_not_string v : Js.isString v = false -> sanitizeText v = "".
Proof.
  destruct v as [| |b|n|s|o]; try discriminate; intros _; unfold sanitizeText;
    cbn [Js.typeof type_eqb negb]; now rewrite orb_true_r.
Qed.

Lemma sanitizeText_empty : sanitizeText (VStr "") = "".
Proof. reflexivity. Qed.

(** C9. [sanitizeText] is not idempotent: sanitizing ["&"] gives ["&amp;"]
    and sanitizing that again gives ["&amp;amp;"].  More generally, whenever
    the sanitized form of an input contains an ampersand, sanitizing it
    again gives a different string. *)
Theorem sanitizeText_not_idempotent :
  (exists x, sanitizeText (VStr (sanitizeText x)) <> sanitizeText x)
  /\ (forall x, contains "&" (sanitizeText x) = true ->
        sanitizeText (VStr (sanitizeText x)) <> sanitizeText x).
Proof.
  assert (G : forall x, contains "&" (sanitizeText x) = true ->
                sanitizeText (VStr (sanitizeText x)) <> sanitizeText x).
  { intros x H E. set (y := sanitizeText x) in *.
    assert (Hy : y <> "") by (intros Ey; rewrite Ey in H; discriminate).
    rewrite (sanitizeText_string y Hy) in E.
    pose proof (inkCount_escapeHtml y H) as L.
    rewrite <- (inkCount_trim (escapeHtml y)), E in L. lia. }
  split; [|exact G].
  exists (VStr "&"). apply G. reflexivity.
Qed.

Lemma sanitizeText_not_idempotent_witness :
  contains "&" (sanitizeText (VStr "Tom & Jerry")) = true
  /\ sanitizeText (VStr (sanitizeText (VStr "Tom & Jerry")))
     <> sanitizeText (VStr "Tom & Jerry").
Proof.
  split; [reflexivity|].
  exact (proj2 sanitizeText_not_idempotent (VStr "Tom & Jerry") eq_refl).
Defined.

Example sanitizeText_twice :
  sanitizeText (VStr "&") = "&amp;"
  /\ sanitizeText (VStr (sanitizeText (VStr "&"))) = "&amp;amp;".
Proof. split; reflexivity. Qed.

(** The example of the specification: nothing raw is left. *)
Example sanitizeText_example :
  sanitizeText (VStr "  <b>Hi & 'bye'</b> ")
  = "&lt;b&gt;Hi &amp; &#x27;bye&#x27;&lt;/b&gt;"
  /\ sanitizeText VUndefined = "" /\ sanitizeText VNull = "".
Proof. repeat split; reflexivity. Qed.

(* ===================================================================== *)
(** ** Operation functions *)
(* ===================================================================== *)

Lemma translateException_stage error : RequestStageError (translateException error).
Proof.
  unfold translateException. destruct (exc_code error) as [code|]; [|exact I].
  destruct (String.eqb code "ECONNREFUSED"); [exact I|].
  destruct (String.eqb code "ETIMEDOUT"); exact I.
Qed.

(** [telegramApiRequest] ends with a response or with one of its own errors. *)
Lemma telegramApiRequest_errors this method endpoint body qs headers botToken tr e :
  fst (telegramApiRequest this method endpoint body qs headers botToken tr) = inl e ->
  RequestStageError e.
Proof.
  unfold telegramApiRequest.
  destruct (negb (Js.truthy botToken)); [intros [= <-]; exact I|].
  destruct (negb (validateBotToken botToken)); [intros [= <-]; exact I|].
  unfold request. cbn [fst snd].
  destruct (helpers_request this tr _) as [error|response]; cbn [fst].
  - intros [= <-]. apply translateException_stage.
  - destruct (negb (Js.truthy (get response "ok"))); cbn [fst]; [|discriminate].
    intros [= <-]. exact I.
Qed.

Ltac stage_contradiction H :=
  apply telegramApiRequest_errors in H; exact H.

(** C3. In each of the seven operation functions a chat identifier that
    fails [validateChatId] makes the call fail with [InvalidChatId], and the
    trace of transport calls is left as it was: the failure comes before any
    network call. *)
Theorem invalid_chat_id_fails_first
    (this : IExecuteFunctions) (chatId : value)
    (Hinvalid : validateChatId chatId = false)
    (text messageId media botToken additionalFields : value) (tr : Trace) :
  sendMessage this chatId text botToken additionalFields tr
    = (inl (InvalidChatId chatId), tr)
  /\ editMessage this chatId messageId text botToken additionalFields tr
    = (inl (InvalidChatId chatId), tr)
  /\ deleteMessage this chatId messageId botToken tr
    = (inl (InvalidChatId chatId), tr)
  /\ sendPhoto this chatId media botToken additionalFields tr
    = (inl (InvalidChatId chatId), tr)
  /\ sendDocument this chatId media botToken additionalFields tr
    = (inl (InvalidChatId chatId), tr)
  /\ getChat this chatId botToken tr
    = (inl (InvalidChatId chatId), tr)
  /\ getChatAdministrators this chatId botToken tr
    = (inl (InvalidChatId chatId), tr).
Proof.
  unfold sendMessage, editMessage, deleteMessage, sendPhoto, sendDocument,
    getChat, getChatAdministrators.
  rewrite Hinvalid. cbn [negb]. repeat split.
Qed.

(** The end-to-end failure of the specification: chat ["not a chat"]. *)
Lemma invalid_chat_id_fails_first_witness :
  let this := sampleHost (fun _ => ∅) 1 false in
  let chatId := VStr "not a chat" in
  validateChatId chatId = false
  /\ sendMessage this chatId (VStr "Hello") sampleToken VUndefined []
     = (inl (InvalidChatId chatId), [])
  /\ getChat this chatId sampleToken [] = (inl (InvalidChatId chatId), []).
Proof.
  intros this chatId.
  pose proof (invalid_chat_id_fails_first this chatId eq_refl
                (VStr "Hello") VUndefined VUndefined sampleToken VUndefined [])
    as (H1 & _ & _ & _ & _ & H6 & _).
  split; [reflexivity | split; [exact H1 | exact H6]].
Defined.

Lemma passesMessageIdCheck_spec messageId :
  negb (Js.truthy messageId) || negb (type_eqb (Js.typeof messageId) Js.TNumber)
    = false
  <-> PassesMessageIdCheck messageId.
Proof.
  unfold PassesMessageIdCheck. rewrite orb_false_iff, !negb_false_iff. split.
  - intros [Ht Hn]. destruct messageId as [| |b|n|s|o]; try discriminate.
    exists n. split; [reflexivity|].
    apply validateChatId_number. unfold validateChatId. now rewrite Ht.
  - intros (n & -> & H). split; [|reflexivity].
    apply validateChatId_number in H. unfold validateChatId in H.
    destruct (Js.truthy (VNum n)); [reflexivity | discriminate].
Qed.

(** C7, as the code has it.  With a valid chat identifier, [editMessage] and
    [deleteMessage] fail with [InvalidMessageId] exactly when the message
    identifier is not a number other than 0 and NaN: when it is missing, when
    it is not a number, and also when it is the number 0 or NaN.  The failure
    leaves the trace of transport calls as it was. *)
Theorem message_id_check
    (this : IExecuteFunctions) (chatId : value)
    (Hvalid : validateChatId chatId = true)
    (messageId text botToken additionalFields : value) (tr : Trace) :
  (fst (editMessage this chatId messageId text botToken additionalFields tr)
     = inl InvalidMessageId
   <-> ~ PassesMessageIdCheck messageId)
  /\ (fst (deleteMessage this chatId messageId botToken tr) = inl InvalidMessageId
      <-> ~ PassesMessageIdCheck messageId)
  /\ (~ PassesMessageIdCheck messageId ->
      editMessage this chatId messageId text botToken additionalFields tr
        = (inl InvalidMessageId, tr)
      /\ deleteMessage this chatId messageId botToken tr
        = (inl InvalidMessageId, tr)).
Proof.
  unfold editMessage, deleteMessage. rewrite Hvalid. cbn [negb].
  rewrite <- passesMessageIdCheck_spec.
  destruct (negb (Js.truthy messageId)
            || negb (type_eqb (Js.typeof messageId) Js.TNumber)).
  - repeat split; try reflexivity; intros; congruence.
  - repeat split; try congruence; intros H; exfalso.
    + destruct (negb (Js.truthy (VStr (sanitizeText text)))); [discriminate|].
      destruct (4096 <? String.length (sanitizeText text))%nat; [discriminate|].
      stage_contradiction H.
    + stage_contradiction H.
Qed.

Lemma message_id_check_witness :
  let this := sampleHost (fun _ => ∅) 1 false in
  let chatId := VStr "@validchannel" in
  validateChatId chatId = true
  /\ ~ PassesMessageIdCheck (VStr "12")
  /\ deleteMessage this chatId (VStr "12") sampleToken []
     = (inl InvalidMessageId, []).
Proof.
  intros this chatId.
  assert (Hn : ~ PassesMessageIdCheck (VStr "12"))
    by (intros (n & E & _); discriminate).
  pose proof (message_id_check this chatId eq_refl
                (VStr "12") (VStr "Hello") sampleToken VUndefined [])
    as (_ & _ & H).
  split; [reflexivity | split; [exact Hn | exact (proj2 (H Hn))]].
Defined.

(** C7, as the claim states it, fails at the message identifier 0: it is
    present and numeric, and both operations reject it.  And a missing
    message identifier is only reported when the chat identifier is valid,
    since that is checked first. *)
Lemma message_id_zero_rejected :
  let this := sampleHost (fun _ => ∅) 1 false in
  let chatId := VStr "@validchannel" in
  let messageId := VNum (Js.ofZ 0) in
  validateChatId chatId = true
  /\ Js.typeof messageId = Js.TNumber
  /\ editMessage this chatId messageId (VStr "Hello") sampleToken VUndefined []
     = (inl InvalidMessageId, [])
  /\ deleteMessage this chatId messageId sampleToken []
     = (inl InvalidMessageId, [])
  /\ deleteMessage this (VStr "not a chat") VUndefined sampleToken []
     = (inl (InvalidChatId (VStr "not a chat")), []).
Proof. repeat split. Qed.

(** *** Merging the additional fields *)

Lemma lookup_assign target source k :
  assign target source !! k
  = match source !! k with Some v => Some v | None => target !! k end.
Proof.
  unfold assign. destruct (source !! k) as [v|] eqn:E.
  - now apply lookup_union_Some_l.
  - now rewrite lookup_union_r.
Qed.

(** *** The text checks *)

(** The checks on the sanitized text, followed by the request [k]. *)
Lemma text_step (k : M (gmap string value)) (st : string) (tr : Trace) :
  (forall e, fst (k tr) = inl e -> RequestStageError e) ->
  TextChecked st tr
    ((if negb (Js.truthy (VStr st)) then throw EmptyText
      else if (4096 <? String.length st)%nat
           then throw (TextTooLong (String.length st))
           else k) tr)
    (k tr).
Proof.
  intros Hk. unfold TextChecked. cbn [Js.truthy].
  destruct (Nat.ltb_spec 4096 (String.length st)) as [Hl|Hl];
    destruct (String.eqb_spec st "") as [->|Hne]; cbn [negb];
    unfold throw; cbn [fst]; try (simpl in Hl; lia).
  - repeat split; try congruence; try lia; eauto.
  - repeat split; try congruence; try lia.
    intros [n H]. discriminate.
  - repeat split; try congruence; try lia.
    + intros H. apply Hk in H. contradiction.
    + intros [n H]. apply Hk in H. contradiction.
Qed.

(** C5, as the code has it.  With a valid chat identifier, [sendMessage]
    - fails with [EmptyText] exactly when the sanitized text is empty,
    - fails with [TextTooLong] exactly when the sanitized text is longer than
      4096 characters, so that exactly 4096 characters pass both checks,
    - and otherwise hands the built body to [telegramApiRequest];
    both failures leave the trace of transport calls as it was.  The same
    holds of [editMessage] when, in addition, the message identifier passes
    its check, which comes before the text checks. *)
Theorem text_checks
    (this : IExecuteFunctions) (chatId : value)
    (Hvalid : validateChatId chatId = true)
    (text botToken additionalFields : value) (tr : Trace) :
  let sanitizedText := sanitizeText text in
  let extra := spread (orDefault additionalFields (VObj ∅)) in
  TextChecked sanitizedText tr
    (sendMessage this chatId text botToken additionalFields tr)
    (telegramApiRequest this "POST" "/sendMessage"
       (assign {[ "chat_id" := chatId; "text" := VStr sanitizedText ]} extra)
       ∅ ∅ botToken tr)
  /\ forall messageId,
       PassesMessageIdCheck messageId ->
       TextChecked sanitizedText tr
         (editMessage this chatId messageId text botToken additionalFields tr)
         (telegramApiRequest this "POST" "/editMessageText"
            (assign {[ "chat_id" := chatId; "message_id" := messageId;
                       "text" := VStr sanitizedText ]} extra)
            ∅ ∅ botToken tr).
Proof.
  intros sanitizedText extra. split.
  - unfold sendMessage. rewrite Hvalid. cbn [negb].
    apply text_step. intros e. apply telegramApiRequest_errors.
  - intros messageId Hid. apply passesMessageIdCheck_spec in Hid.
    unfold editMessage. rewrite Hvalid, Hid. cbn [negb].
    apply text_step. intros e. apply telegramApiRequest_errors.
Qed.

Lemma text_checks_witness :
  let this := sampleHost (fun _ => ∅) 1 false in
  let chatId := VStr "@validchannel" in
  let messageId := VNum (Js.ofZ 7) in
  validateChatId chatId = true
  /\ PassesMessageIdCheck messageId
  /\ sendMessage this chatId (VStr "Hello") sampleToken VUndefined []
     = telegramApiRequest this "POST" "/sendMessage"
         (assign {[ "chat_id" := chatId; "text" := VStr "Hello" ]} ∅)
         ∅ ∅ sampleToken []
  /\ editMessage this chatId messageId (VStr "  ") sampleToken VUndefined []
     = (inl EmptyText, []).
Proof.
  intros this chatId messageId.
  assert (Hid : PassesMessageIdCheck messageId).
  { exists (Js.ofZ 7). split; [reflexivity | split; [discriminate | reflexivity]]. }
  pose proof (text_checks this chatId eq_refl (VStr "Hello") sampleToken VUndefined [])
    as [(_ & _ & _ & _ & H5) _].
  pose proof (text_checks this chatId eq_refl (VStr "  ") sampleToken VUndefined [])
    as [_ Hedit].
  destruct (Hedit messageId Hid) as (_ & _ & H3 & _).
  split; [reflexivity | split; [exact Hid | split]].
  - apply H5; [discriminate | vm_compute; lia].
  - apply H3. reflexivity.
Defined.

(** The length boundary of the specification, on the sample host: 4096
    characters reach the transport, 4097 fail with [TextTooLong]. *)
Example text_length_boundary :
  let this := sampleHost (fun _ => ∅) 1 false in
  let chatId := VStr "@validchannel" in
  let text n := VStr (string_of_list_ascii (repeat "a"%char n)) in
  sendMessage this chatId (text 4096) sampleToken VUndefined [] = (inr okResponse,
    [ {| method := "POST";
         headers := {[ "Content-Type" := VStr "application/json" ]};
         body := {[ "chat_id" := chatId; "text" := text 4096 ]};
         qs := ∅;
         url := "https://api.telegram.org/bot123456789:abcDEF012345678901234567890123/sendMessage";
         json := true;
         timeout := 30000 |} ])
  /\ sendMessage this chatId (text 4097) sampleToken VUndefined []
     = (inl (TextTooLong 4097), []).
Proof. split; vm_compute; reflexivity. Qed.

(** C5, as the claim states it, fails for [editMessage]: with a valid chat
    identifier, a missing message identifier and an empty text, the call
    fails with [InvalidMessageId], not with [EmptyText]. *)
Lemma editMessage_empty_text_not_reported :
  let this := sampleHost (fun _ => ∅) 1 false in
  let chatId := VStr "@validchannel" in
  validateChatId chatId = true
  /\ sanitizeText (VStr "") = ""
  /\ editMessage this chatId VUndefined (VStr "") sampleToken VUndefined []
     = (inl InvalidMessageId, [])
  /\ fst (editMessage this chatId VUndefined (VStr "") sampleToken VUndefined [])
     <> inl EmptyText.
Proof. repeat split. discriminate. Qed.

(** C2, as the code has it.  When the checks pass, the body that
    [sendMessage] and [editMessage] hand to [telegramApiRequest] carries
    every additional field with the caller's value, and carries the computed
    [chat_id], [text] and [message_id] exactly under the keys that the
    additional fields do not contain. *)
Theorem additional_fields_merge
    (this : IExecuteFunctions) (chatId messageId text : value)
    (Hvalid : validateChatId chatId = true)
    (Hid : PassesMessageIdCheck messageId)
    (Hnonempty : sanitizeText text <> "")
    (Hlength : (String.length (sanitizeText text) <= 4096)%nat)
    (botToken additionalFields : value) (tr : Trace) :
  let extra := spread (orDefault additionalFields (VObj ∅)) in
  exists sendBody editBody,
    sendMessage this chatId text botToken additionalFields tr
      = telegramApiRequest this "POST" "/sendMessage" sendBody ∅ ∅ botToken tr
    /\ editMessage this chatId messageId text botToken additionalFields tr
      = telegramApiRequest this "POST" "/editMessageText" editBody ∅ ∅ botToken tr
    /\ (forall k v, extra !! k = Some v ->
          sendBody !! k = Some v /\ editBody !! k = Some v)
    /\ (extra !! "chat_id" = None ->
          sendBody !! "chat_id" = Some chatId /\ editBody !! "chat_id" = Some chatId)
    /\ (extra !! "text" = None ->
          sendBody !! "text" = Some (VStr (sanitizeText text))
          /\ editBody !! "text" = Some (VStr (sanitizeText text)))
    /\ (extra !! "message_id" = None -> editBody !! "message_id" = Some messageId).
Proof.
  intros extra.
  apply passesMessageIdCheck_spec in Hid.
  unfold sendMessage, editMessage. rewrite Hvalid, Hid. cbn [negb]. fold extra.
  assert (Ht : negb (Js.truthy (VStr (sanitizeText text))) = false).
  { cbn [Js.truthy]. destruct (String.eqb_spec (sanitizeText text) "");
      [contradiction | reflexivity]. }
  apply Nat.ltb_ge in Hlength. rewrite Ht, Hlength.
  eexists _, _. split; [reflexivity | split; [reflexivity |]].
  split; [|split; [|split]].
  - intros k v Hk. rewrite !lookup_assign, Hk. auto.
  - intros Hk. rewrite !lookup_assign, Hk. split; reflexivity.
  - intros Hk. rewrite !lookup_assign, Hk. split; reflexivity.
  - intros Hk. rewrite lookup_assign, Hk. reflexivity.
Qed.

Lemma additional_fields_merge_witness :
  let this := sampleHost (fun _ => ∅) 1 false in
  let chatId := VStr "@validchannel" in
  let additionalFields := VObj {[ "parse_mode" := VStr "HTML" ]} in
  validateChatId chatId = true
  /\ PassesMessageIdCheck (VNum (Js.ofZ 7))
  /\ sanitizeText (VStr "Hello") <> ""
  /\ (String.length (sanitizeText (VStr "Hello")) <= 4096)%nat
  /\ exists sendBody,
       sendMessage this chatId (VStr "Hello") sampleToken additionalFields []
         = telegramApiRequest this "POST" "/sendMessage" sendBody ∅ ∅ sampleToken []
       /\ sendBody !! "parse_mode" = Some (VStr "HTML")
       /\ sendBody !! "chat_id" = Some chatId
       /\ sendBody !! "text" = Some (VStr "Hello").
Proof.
  intros this chatId additionalFields.
  assert (Hid : PassesMessageIdCheck (VNum (Js.ofZ 7))).
  { exists (Js.ofZ 7). split; [reflexivity | split; [discriminate | reflexivity]]. }
  assert (Hne : sanitizeText (VStr "Hello") <> "") by discriminate.
  assert (Hle : (String.length (sanitizeText (VStr "Hello")) <= 4096)%nat)
    by (vm_compute; lia).
  destruct (additional_fields_merge this chatId (VNum (Js.ofZ 7)) (VStr "Hello")
              eq_refl Hid Hne Hle sampleToken additionalFields [])
    as (sendBody & editBody & Hs & _ & Hextra & Hchat & Htext & _).
  repeat (split; [solve [reflexivity | assumption]|]).
  exists sendBody. split; [exact Hs|]. split; [|split].
  - apply (Hextra "parse_mode"). reflexivity.
  - apply Hchat. reflexivity.
  - apply Htext. reflexivity.
Defined.

(** C2, as the claim states it, fails: additional fields named [chat_id],
    [text] and [message_id] replace the computed values in the body that
    reaches the transport, the text without being sanitized. *)
Lemma additional_fields_override :
  let this := sampleHost (fun _ => ∅) 1 false in
  let chatId := VStr "@validchannel" in
  let additionalFields :=
    VObj {[ "chat_id" := VStr "@otherchannel"; "text" := VStr "<b>raw</b>";
            "message_id" := VNum (Js.ofZ 99) ]} in
  validateChatId chatId = true
  /\ match snd (sendMessage this chatId (VStr "Hello") sampleToken
                  additionalFields []) with
     | [options] =>
         body options !! "chat_id" = Some (VStr "@otherchannel")
         /\ body options !! "text" = Some (VStr "<b>raw</b>")
     | _ => False
     end
  /\ match snd (editMessage this chatId (VNum (Js.ofZ 7)) (VStr "Hello")
                  sampleToken additionalFields []) with
     | [options] =>
         body options !! "chat_id" = Some (VStr "@otherchannel")
         /\ body options !! "text" = Some (VStr "<b>raw</b>")
         /\ body options !! "message_id" = Some (VNum (Js.ofZ 99))
     | _ => False
     end.
Proof. vm_compute. repeat split. Qed.

(** *** The caption check *)

Lemma sanitizeText_long_is_string v :
  (1024 < String.length (sanitizeText v))%nat ->
  exists c, v = VStr c /\ c <> "".
Proof.
  intros H. destruct v as [| |b|n|c|o];
    try (rewrite sanitizeText_not_string in H by reflexivity; simpl in H; lia).
  exists c. split; [reflexivity|]. intros ->. simpl in H. lia.
Qed.

Lemma sanitizeCaption_spec m (body : gmap string value) tr :
  let caption := get body "caption" in
  let sanitized := sanitizeText caption in
  ((1024 < String.length sanitized)%nat ->
     sanitizeCaption m body tr
     = (inl (CaptionTooLong m (String.length sanitized)), tr))
  /\ ((String.length sanitized <= 1024)%nat ->
      exists body',
        sanitizeCaption m body tr = (inr body', tr)
        /\ (forall k, k <> "caption" -> body' !! k = body !! k)
        /\ (forall c, body !! "caption" = Some (VStr c) ->
              body' !! "caption" = Some (VStr (sanitizeText (VStr c))))
        /\ (Js.isString caption = false -> body' = body)).
Proof.
  intros caption sanitized. unfold sanitizeCaption. fold caption. fold sanitized.
  split.
  - intros H. destruct (sanitizeText_long_is_string _ H) as (c & E & Hc).
    rewrite E. cbn [Js.truthy Js.typeof type_eqb andb].
    destruct (String.eqb_spec c ""); [contradiction|]. cbn [negb].
    apply Nat.ltb_lt in H. now rewrite H.
  - intros H. apply Nat.ltb_ge in H.
    destruct (Js.truthy caption && type_eqb (Js.typeof caption) Js.TString) eqn:E.
    + rewrite H. eexists. split; [reflexivity|]. split; [|split].
      * intros k Hk. now rewrite lookup_insert_ne.
      * intros c Hc. rewrite lookup_insert_eq. subst sanitized caption.
        unfold get. now rewrite Hc.
      * intros Hs. apply andb_true_iff in E as [_ E].
        destruct caption; discriminate.
    + exists body. split; [reflexivity|]. split; [reflexivity|]. split; [|reflexivity].
      intros c Hc. rewrite Hc. f_equal. f_equal.
      subst caption. unfold get in E. rewrite Hc in E. cbn in E.
      rewrite andb_true_r in E. apply negb_false_iff in E.
      apply String.eqb_eq in E. now subst c.
Qed.

(** The caption step followed by the request, as in [sendPhoto] and
    [sendDocument]. *)
Lemma media_step this m endpoint (body0 : gmap string value) botToken tr :
  let r := (let* body := sanitizeCaption m body0 in
            telegramApiRequest this "POST" endpoint body ∅ ∅ botToken) tr in
  let sanitized := sanitizeText (get body0 "caption") in
  ((exists m' n, fst r = inl (CaptionTooLong m' n))
     <-> (1024 < String.length sanitized)%nat)
  /\ ((1024 < String.length sanitized)%nat ->
      r = (inl (CaptionTooLong m (String.length sanitized)), tr))
  /\ ((String.length sanitized <= 1024)%nat ->
      exists body',
        r = telegramApiRequest this "POST" endpoint body' ∅ ∅ botToken tr
        /\ (forall k, k <> "caption" -> body' !! k = body0 !! k)
        /\ (forall c, body0 !! "caption" = Some (VStr c) ->
              body' !! "caption" = Some (VStr (sanitizeText (VStr c))))).
Proof.
  intros r sanitized.
  destruct (sanitizeCaption_spec m body0 tr) as [Hlong Hshort].
  fold sanitized in Hlong, Hshort.
  assert (L : (1024 < String.length sanitized)%nat ->
              r = (inl (CaptionTooLong m (String.length sanitized)), tr)).
  { intros H. subst r. unfold bind. now rewrite (Hlong H). }
  assert (S : (String.length sanitized <= 1024)%nat ->
              exists body',
                r = telegramApiRequest this "POST" endpoint body' ∅ ∅ botToken tr
                /\ (forall k, k <> "caption" -> body' !! k = body0 !! k)
                /\ (forall c, body0 !! "caption" = Some (VStr c) ->
                      body' !! "caption" = Some (VStr (sanitizeText (VStr c))))).
  { intros H. destruct (Hshort H) as (body' & E & Hk & Hc & _).
    exists body'. subst r. unfold bind. rewrite E. auto. }
  split; [|split; assumption].
  split.
  - intros (m' & n & H).
    destruct (Nat.lt_ge_cases 1024 (String.length sanitized)) as [Hl|Hl]; [assumption|].
    destruct (S Hl) as (body' & E & _). rewrite E in H.
    apply telegramApiRequest_errors in H. contradiction.
  - intros H. exists m, (String.length sanitized). now rewrite (L H).
Qed.

Lemma get_assign_fresh target source k :
  target !! k = None ->
  get (assign target source) k = get source k
  /\ assign target source !! k = source !! k.
Proof.
  intros H. unfold get. rewrite lookup_assign, H.
  destruct (source !! k); auto.
Qed.

Lemma get_string (o : gmap string value) k c :
  get o k = VStr c -> o !! k = Some (VStr c).
Proof.
  unfold get. destruct (o !! k) as [v|]; simpl; [congruence | discriminate].
Qed.

(** C6. With a valid chat identifier and a non-empty media reference,
    [sendPhoto] and [sendDocument] fail with [CaptionTooLong] exactly when
    the sanitized caption is longer than 1024 characters, leaving the trace
    of transport calls as it was; otherwise they hand the body to
    [telegramApiRequest], and a string caption among the additional fields
    is in that body in its sanitized form.  A sanitized caption of exactly
    1024 characters passes. *)
Theorem caption_check
    (this : IExecuteFunctions) (chatId media : value)
    (Hvalid : validateChatId chatId = true)
    (Hmedia : Js.truthy media = true)
    (botToken additionalFields : value) (tr : Trace) :
  let extra := spread (orDefault additionalFields (VObj ∅)) in
  let caption := get extra "caption" in
  let sanitized := sanitizeText caption in
  let photo := sendPhoto this chatId media botToken additionalFields tr in
  let document := sendDocument this chatId media botToken additionalFields tr in
  (((exists m n, fst photo = inl (CaptionTooLong m n))
      <-> (1024 < String.length sanitized)%nat)
   /\ ((exists m n, fst document = inl (CaptionTooLong m n))
      <-> (1024 < String.length sanitized)%nat))
  /\ ((1024 < String.length sanitized)%nat ->
      photo = (inl (CaptionTooLong Photo (String.length sanitized)), tr)
      /\ document = (inl (CaptionTooLong Document (String.length sanitized)), tr))
  /\ ((String.length sanitized <= 1024)%nat ->
      exists photoBody documentBody,
        photo = telegramApiRequest this "POST" "/sendPhoto" photoBody ∅ ∅ botToken tr
        /\ document
           = telegramApiRequest this "POST" "/sendDocument" documentBody ∅ ∅ botToken tr
        /\ (forall c, caption = VStr c ->
              photoBody !! "caption" = Some (VStr (sanitizeText (VStr c)))
              /\ documentBody !! "caption" = Some (VStr (sanitizeText (VStr c))))).
Proof.
  intros extra caption sanitized photo document.
  subst photo document. unfold sendPhoto, sendDocument.
  rewrite Hvalid, Hmedia. cbn [negb]. fold extra.
  set (photoCore := ({[ "chat_id" := chatId; "photo" := media ]} : gmap string value)).
  set (documentCore := ({[ "chat_id" := chatId; "document" := media ]} : gmap string value)).
  destruct (get_assign_fresh photoCore extra "caption" eq_refl) as [Pg Pl].
  destruct (get_assign_fresh documentCore extra "caption" eq_refl) as [Dg Dl].
  destruct (media_step this Photo "/sendPhoto" (assign photoCore extra) botToken tr)
    as (P1 & P2 & P3).
  destruct (media_step this Document "/sendDocument" (assign documentCore extra)
              botToken tr) as (D1 & D2 & D3).
  cbv zeta in *. rewrite Pg in P1, P2, P3. rewrite Dg in D1, D2, D3.
  fold caption in P1, P2, P3, D1, D2, D3.
  fold sanitized in P1, P2, P3, D1, D2, D3.
  split; [split; assumption|]. split; [auto|].
  intros H. destruct (P3 H) as (photoBody & EP & _ & PC).
  destruct (D3 H) as (documentBody & ED & _ & DC).
  exists photoBody, documentBody. split; [exact EP | split; [exact ED|]].
  intros c Hc. apply get_string in Hc. split.
  - apply PC. now rewrite Pl.
  - apply DC. now rewrite Dl.
Qed.

Lemma caption_check_witness :
  let this := sampleHost (fun _ => ∅) 1 false in
  let chatId := VStr "@validchannel" in
  let media := VStr "https://example.org/cat.png" in
  let additionalFields := VObj {[ "caption" := VStr " <Tom & Jerry> " ]} in
  validateChatId chatId = true
  /\ Js.truthy media = true
  /\ exists photoBody,
       sendPhoto this chatId media sampleToken additionalFields []
         = telegramApiRequest this "POST" "/sendPhoto" photoBody ∅ ∅ sampleToken []
       /\ photoBody !! "caption" = Some (VStr "&lt;Tom &amp; Jerry&gt;").
Proof.
  intros this chatId media additionalFields.
  destruct (caption_check this chatId media eq_refl eq_refl sampleToken
              additionalFields []) as (_ & _ & H).
  destruct H as (photoBody & documentBody & EP & _ & HC); [vm_compute; lia|].
  split; [reflexivity | split; [reflexivity|]].
  exists photoBody. split; [exact EP|].
  exact (proj1 (HC " <Tom & Jerry> " eq_refl)).
Defined.

(** The caption boundary of the specification, on the sample host: 1024
    characters reach the transport, 1025 fail with [CaptionTooLong]. *)
Example caption_length_boundary :
  let this := sampleHost (fun _ => ∅) 1 false in
  let chatId := VStr "@validchannel" in
  let media := VStr "https://example.org/cat.png" in
  let caption n := VObj {[ "caption" := VStr (string_of_list_ascii (repeat "a"%char n)) ]} in
  fst (sendPhoto this chatId media sampleToken (caption 1024) []) = inr okResponse
  /\ sendDocument this chatId media sampleToken (caption 1025) []
     = (inl (CaptionTooLong Document 1025), []).
Proof. split; vm_compute; reflexivity. Qed.

(* ===================================================================== *)
(** ** Dispatcher *)
(* ===================================================================== *)

Lemma host_run {A} (r : Exception + A) tr :
  host r tr = (match r with inr a => inr a | inl e => inl (HostError e) end, tr).
Proof. destruct r; reflexivity. Qed.

(** Reading the token makes no transport call. *)
Lemma resolveToken_trace this i tr : snd (resolveToken this i tr) = tr.
Proof.
  unfold resolveToken, bind. rewrite host_run.
  destruct (getNodeParameter this "authMethod" i) as [e|authMethod]; [reflexivity|].
  destruct (strictEq authMethod "credentials").
  { rewrite host_run. destruct (getCredentials this "telegramMultiApi" i); reflexivity. }
  destruct (strictEq authMethod "environment"); [now rewrite host_run|].
  destruct (strictEq authMethod "direct"); [now rewrite host_run|].
  reflexivity.
Qed.

Lemma validateBotToken_truthy token :
  validateBotToken token = true -> Js.truthy token = true.
Proof.
  unfold validateBotToken. destruct (Js.truthy token); [reflexivity|].
  cbn [negb orb]. discriminate.
Qed.

(** One step of the loop, whatever the mode. *)
Lemma loop_step this n i returnData tr :
  loop this (S n) i returnData tr
  = match processItem this i tr with
    | (inr responseData, tr') =>
        loop this n (S i) (returnData ++ [successRecord i responseData])%list tr'
    | (inl error, tr') =>
        if continueOnFail this
        then loop this n (S i) (returnData ++ [errorRecord i error])%list tr'
        else (inl error, tr')
    end.
Proof. reflexivity. Qed.

Lemma processItem_outcome this tr i :
  processItem this i (traceBefore this tr i)
  = (outcome this tr i, traceBefore this tr (S i)).
Proof. unfold outcome. cbn [traceBefore]. now destruct (processItem this i _). Qed.

(** With continue-on-failure every item contributes its record. *)
Lemma loop_continue this tr (Hc : continueOnFail this = true) :
  forall n i returnData,
    loop this n i returnData (traceBefore this tr i)
    = (inr (returnData ++ map (fun j => recordOf j (outcome this tr j)) (seq i n))%list,
       traceBefore this tr (i + n)).
Proof.
  induction n as [|n IH]; intros i returnData.
  - cbn [loop seq map]. unfold ret. now rewrite app_nil_r, Nat.add_0_r.
  - rewrite loop_step, processItem_outcome, Hc.
    replace (i + S n)%nat with (S i + n)%nat by lia.
    cbn [seq map]. destruct (outcome this tr i) as [e|d]; cbn [recordOf];
      rewrite IH, <- app_assoc; reflexivity.
Qed.

(** Without it the items run until the first failure, which ends the loop. *)
Lemma loop_abort this tr (Hc : continueOnFail this = false) :
  forall n i returnData,
    (forall k e,
       (i <= k < i + n)%nat ->
       (forall j, (i <= j < k)%nat -> isSuccess (outcome this tr j) = true) ->
       outcome this tr k = inl e ->
       loop this n i returnData (traceBefore this tr i)
       = (inl e, traceBefore this tr (S k)))
    /\ ((forall j, (i <= j < i + n)%nat -> isSuccess (outcome this tr j) = true) ->
        loop this n i returnData (traceBefore this tr i)
        = (inr (returnData ++ map (fun j => recordOf j (outcome this tr j)) (seq i n))%list,
           traceBefore this tr (i + n))).
Proof.
  induction n as [|n IH]; intros i returnData.
  - split; [intros k e Hk; lia|].
    intros _. cbn [loop seq map]. unfold ret. now rewrite app_nil_r, Nat.add_0_r.
  - rewrite loop_step, processItem_outcome, Hc. split.
    + intros k e Hk Hbefore Hfail.
      destruct (Nat.eq_dec k i) as [->|Hne].
      * now rewrite Hfail.
      * assert (Hi : isSuccess (outcome this tr i) = true) by (apply Hbefore; lia).
        destruct (outcome this tr i) as [e'|d]; [discriminate|].
        apply (proj1 (IH (S i) _)); [lia | intros j Hj; apply Hbefore; lia | assumption].
    + intros Hall.
      assert (Hi : isSuccess (outcome this tr i) = true) by (apply Hall; lia).
      destruct (outcome this tr i) as [e'|d] eqn:E; [discriminate|].
      rewrite (proj2 (IH (S i) _)) by (intros j Hj; apply Hall; lia).
      replace (i + S n)%nat with (S i + n)%nat by lia.
      cbn [seq map]. rewrite E, <- app_assoc. reflexivity.
Qed.

Lemma lookup_map_seq {A} (f : nat -> A) : forall n i k,
  (k < n)%nat -> map f (seq i n) !! k = Some (f (i + k)%nat).
Proof.
  induction n as [|n IH]; intros i k Hk; [lia|].
  cbn [seq map]. destruct k as [|k].
  - now rewrite Nat.add_0_r.
  - cbn [lookup list_lookup]. rewrite IH by lia. f_equal. f_equal. lia.
Qed.

(** C4. With continue-on-failure enabled, [execute] returns one record per
    input item, in the order of the items: the record at position [i] is
    paired with item [i] and is determined by the outcome of item [i] alone,
    an error record [{ error: <message> }] when the item failed and the
    response otherwise.  With continue-on-failure disabled, the first item
    that fails ends [execute] with its error, and no later item is
    processed. *)
Theorem batch_results (this : IExecuteFunctions) (tr : Trace) :
  let n := List.length (getInputData this) in
  let record i := recordOf i (outcome this tr i) in
  let returnData := map record (seq 0 n) in
  (continueOnFail this = true ->
     execute this tr = (inr [returnData], traceBefore this tr n)
     /\ List.length returnData = n
     /\ forall i, (i < n)%nat ->
          returnData !! i = Some (record i)
          /\ pairedItem (record i) = i
          /\ (forall e, outcome this tr i = inl e ->
                json_ (record i) = {[ "error" := VStr (errorText e) ]})
          /\ (forall d, outcome this tr i = inr d -> json_ (record i) = d))
  /\ (continueOnFail this = false ->
      forall k e,
        (k < n)%nat ->
        (forall j, (j < k)%nat -> isSuccess (outcome this tr j) = true) ->
        outcome this tr k = inl e ->
        execute this tr = (inl e, traceBefore this tr (S k))).
Proof.
  intros n record returnData. split.
  - intros Hc. unfold execute, bind. fold n.
    pose proof (loop_continue this tr Hc n 0 []) as L.
    cbn [traceBefore app Nat.add] in L. rewrite L. unfold ret.
    split; [reflexivity|]. split; [subst returnData; now rewrite length_map, length_seq|].
    intros i Hi. subst returnData. rewrite lookup_map_seq by assumption.
    cbn [Nat.add]. split; [reflexivity|]. subst record. cbv beta.
    destruct (outcome this tr i) as [e|d]; cbn [recordOf errorRecord successRecord
      pairedItem json_]; repeat split; intros ? [= <-]; reflexivity.
  - intros Hc k e Hk Hbefore Hfail.
    unfold execute, bind. fold n.
    pose proof (proj1 (loop_abort this tr Hc n 0 []) k e) as L.
    cbn [traceBefore Nat.add] in L. rewrite L; auto.
    + lia.
    + intros j Hj. apply Hbefore. lia.
Qed.

(** The batch of the specification: three items, the second with an invalid
    chat identifier.  With continue-on-failure the output has three records,
    the second an error record; without it the batch ends at the second item,
    after the one request of the first. *)
Lemma batch_results_witness :
  let continuing := sampleHost sampleBatch 3 true in
  let aborting := sampleHost sampleBatch 3 false in
  let failure := InvalidChatId (VStr "not a chat") in
  continueOnFail continuing = true
  /\ fst (execute continuing [])
     = inr [[ {| json_ := okResponse; pairedItem := 0 |};
              {| json_ := {[ "error" :=
                   VStr "Invalid chat ID: not a chat. Use numeric ID or @username format." ]};
                 pairedItem := 1 |};
              {| json_ := okResponse; pairedItem := 2 |} ]]
  /\ continueOnFail aborting = false
  /\ fst (execute aborting []) = inl failure
  /\ List.length (snd (execute aborting [])) = 1%nat.
Proof.
  intros continuing aborting failure.
  destruct (batch_results continuing []) as [Hcontinue _].
  destruct (Hcontinue eq_refl) as (E & _).
  destruct (batch_results aborting []) as [_ Habort].
  assert (A : execute aborting [] = (inl failure, traceBefore aborting [] 2)).
  { apply (Habort eq_refl 1%nat failure); [vm_compute; lia | | vm_compute; reflexivity].
    intros j Hj. assert (j = 0)%nat as -> by lia. vm_compute. reflexivity. }
  split; [reflexivity|]. split; [|split; [reflexivity|]].
  - rewrite E. vm_compute. reflexivity.
  - rewrite A. split; [reflexivity | vm_compute; reflexivity].
Defined.

(** C10. When the token and the four common parameters of an item resolve
    without error and its resource and operation are none of the seven
    routed pairs, processing the item calls no operation function and
    succeeds with the empty object: [execute] pushes the success record
    [{ json: {} }] paired with the item and goes on with the next item,
    whatever the failure mode of the batch. *)
Theorem unrouted_pair_gives_empty_record
    (this : IExecuteFunctions) (i : nat) (tr : Trace)
    (botToken resource operation chatId additionalFields : value)
    (Htoken : fst (resolveToken this i tr) = inr botToken)
    (Hformat : validateBotToken botToken = true)
    (Hresource : getNodeParameter this "resource" i = inr resource)
    (Hoperation : getNodeParameter this "operation" i = inr operation)
    (HchatId : getNodeParameter this "chatId" i = inr chatId)
    (Hfields : getNodeParameter this "additionalFields" i = inr additionalFields)
    (Hunrouted : handled resource operation = false) :
  processItem this i tr = (inr ∅, tr)
  /\ forall n returnData,
       loop this (S n) i returnData tr
       = loop this n (S i)
           (returnData ++ [ {| json_ := ∅; pairedItem := i |} ])%list tr.
Proof.
  assert (P : processItem this i tr = (inr ∅, tr)).
  { unfold processItem, bind.
    pose proof (resolveToken_trace this i tr) as Htrace.
    destruct (resolveToken this i tr) as [r tr'].
    cbn [fst snd] in Htoken, Htrace. subst r tr'.
    rewrite (validateBotToken_truthy _ Hformat), Hformat. cbn [negb].
    rewrite Hresource, Hoperation, HchatId, Hfields. cbn [host].
    unfold ret at 1 2 3 4.
    unfold handled in Hunrouted.
    destruct (strictEq resource "message"), (strictEq resource "photo"),
      (strictEq resource "document"), (strictEq resource "chat"),
      (strictEq operation "send"), (strictEq operation "edit"),
      (strictEq operation "delete"), (strictEq operation "get"),
      (strictEq operation "getAdministrators");
      cbn [andb orb] in Hunrouted; try discriminate Hunrouted; reflexivity. }
  split; [exact P|].
  intros n returnData. now rewrite loop_step, P.
Qed.

Lemma unrouted_pair_witness :
  let this := sampleHost (fun _ => unroutedItem) 1 false in
  fst (resolveToken this 0 []) = inr sampleToken
  /\ validateBotToken sampleToken = true
  /\ getNodeParameter this "resource" 0 = inr (VStr "sticker")
  /\ getNodeParameter this "operation" 0 = inr (VStr "send")
  /\ handled (VStr "sticker") (VStr "send") = false
  /\ processItem this 0 [] = (inr ∅, [])
  /\ execute this [] = (inr [[ {| json_ := ∅; pairedItem := 0 |} ]], []).
Proof.
  intros this.
  destruct (unrouted_pair_gives_empty_record this 0 [] sampleToken
              (VStr "sticker") (VStr "send") (VStr "@validchannel") (VObj ∅)
              eq_refl eq_refl eq_refl eq_refl eq_refl eq_refl eq_refl)
    as [P L].
  do 5 (split; [reflexivity|]). split; [exact P|].
  unfold execute, bind.
  change (List.length (getInputData this)) with 1%nat.
  rewrite L. reflexivity.
Defined.

(** Also a known resource with an operation it does not have is unrouted:
    no [text] or [messageId] is read, nothing is validated, nothing is sent. *)
Example unrouted_operation :
  let item := <[ "operation" := VStr "forward" ]> (sampleItem "not a chat") in
  execute (sampleHost (fun _ => item) 1 false) []
  = (inr [[ {| json_ := ∅; pairedItem := 0 |} ]], []).
Proof. vm_compute. reflexivity. Qed.

(** The end-to-end examples of the specification. *)
Example end_to_end_success :
  sendMessage (sampleHost (fun _ => ∅) 1 false) (VStr "@validchannel")
    (VStr "Hello") sampleToken VUndefined []
  = (inr okResponse,
     [ {| method := "POST";
          headers := {[ "Content-Type" := VStr "application/json" ]};
          body := {[ "chat_id" := VStr "@validchannel"; "text" := VStr "Hello" ]};
          qs := ∅;
          url := "https://api.telegram.org/bot123456789:abcDEF012345678901234567890123/sendMessage";
          json := true;
          timeout := 30000 |} ]).
Proof. vm_compute. reflexivity. Qed.

Example end_to_end_api_error :
  let this := hostAnswering (inr chatNotFound) (fun _ => ∅) 1 false in
  fst (sendMessage this (VStr "@validchannel") (VStr "Hello") sampleToken VUndefined [])
    = inl (ApiError chatNotFound)
  /\ message (ApiError chatNotFound) = "Telegram API Error: chat not found".
Proof. split; vm_compute; reflexivity. Qed.

Example end_to_end_connection_refused :
  let this := hostAnswering (inl refused) (fun _ => ∅) 1 false in
  fst (getChat this (VStr "-1009876543210") sampleToken []) = inl ConnectionRefused.
Proof. vm_compute. reflexivity. Qed.

(* ===================================================================== *)
(** ** Further properties of the sanitizer *)
(* ===================================================================== *)

Lemma replaceAll_app c by_ a b :
  replaceAll c by_ (a +:+ b) = replaceAll c by_ a +:+ replaceAll c by_ b.
Proof.
  induction a as [|x a IH]; simpl; [reflexivity|].
  destruct (Ascii.eqb x c); rewrite IH; [now rewrite app_assoc_str | reflexivity].
Qed.

Lemma escapeHtml_app a b : escapeHtml (a +:+ b) = escapeHtml a +:+ escapeHtml b.
Proof. unfold escapeHtml. now rewrite !replaceAll_app. Qed.

Lemma escapeHtml_char c : escapeHtml (String c "") = escapeChar c.
Proof.
  unfold escapeHtml, escapeChar.
  destruct (Ascii.eqb_spec c "&") as [->|H1]; [reflexivity|].
  destruct (Ascii.eqb_spec c "<") as [->|H2]; [reflexivity|].
  destruct (Ascii.eqb_spec c ">") as [->|H3]; [reflexivity|].
  destruct (Ascii.eqb_spec c quote) as [->|H4]; [reflexivity|].
  destruct (Ascii.eqb_spec c apostrophe) as [->|H5]; [reflexivity|].
  apply Ascii.eqb_neq in H1, H2, H3, H4, H5.
  cbn [replaceAll]. rewrite H1. cbn [replaceAll]. rewrite H2.
  cbn [replaceAll]. rewrite H3. cbn [replaceAll]. rewrite H4.
  cbn [replaceAll]. now rewrite H5.
Qed.

(** The five replacements made one after the other amount to a single pass
    that maps every character on its own. *)
Lemma escapeHtml_escapeOnce (s : string) : escapeHtml s = escapeOnce s.
Proof.
  induction s as [|c s IH]; [reflexivity|].
  change (String c s) with (String c "" +:+ s).
  rewrite escapeHtml_app, escapeHtml_char, IH. reflexivity.
Qed.

Lemma escapeChar_cases c :
  (isSpecial c = false /\ escapeChar c = String c "")
  \/ (isSpecial c = true /\ isWhiteSpace c = false
      /\ exists rest, escapeChar c = String "&" (rest +:+ ";")
                      /\ all (fun a => negb (isSpecial a) && negb (isWhiteSpace a))
                             (rest +:+ ";") = true).
Proof.
  unfold escapeChar, isSpecial.
  destruct (Ascii.eqb_spec c "&") as [->|H1];
    [right; repeat split; exists "amp"; split; reflexivity|].
  destruct (Ascii.eqb_spec c "<") as [->|H2];
    [right; repeat split; exists "lt"; split; reflexivity|].
  destruct (Ascii.eqb_spec c ">") as [->|H3];
    [right; repeat split; exists "gt"; split; reflexivity|].
  destruct (Ascii.eqb_spec c quote) as [->|H4];
    [right; repeat split; exists "quot"; split; reflexivity|].
  destruct (Ascii.eqb_spec c apostrophe) as [->|H5];
    [right; repeat split; exists "#x27"; split; reflexivity|].
  left. split; reflexivity.
Qed.

Lemma whiteSpace_not_special c : isWhiteSpace c = true -> isSpecial c = false.
Proof.
  intros H. destruct (escapeChar_cases c) as [[E _]|(_ & E & _)]; congruence.
Qed.

Lemma contains_app c a b : contains c (a +:+ b) = contains c a || contains c b.
Proof.
  induction a as [|x a IH]; simpl; [reflexivity|]. now rewrite IH, orb_assoc.
Qed.

Lemma all_not_contains p c s : all p s = true -> p c = false -> contains c s = false.
Proof.
  induction s as [|a s IH]; simpl; [reflexivity|].
  intros H Hc. apply andb_true_iff in H as [Ha H].
  destruct (Ascii.eqb_spec a c) as [->|_]; [congruence | now apply IH].
Qed.

Lemma contains_trimStart c s : contains c s = false -> contains c (trimStart s) = false.
Proof.
  induction s as [|a s IH]; simpl; [reflexivity|].
  intros H. apply orb_false_iff in H as [Ha H].
  destruct (isWhiteSpace a); [now apply IH | simpl; now rewrite Ha, H].
Qed.

Lemma contains_trimEnd c s : contains c s = false -> contains c (trimEnd s) = false.
Proof.
  induction s as [|a s IH]; simpl; [reflexivity|].
  intros H. apply orb_false_iff in H as [Ha H]. specialize (IH H).
  destruct (trimEnd s) as [|b t].
  - destruct (isWhiteSpace a); simpl; [reflexivity | now rewrite Ha].
  - simpl in *. now rewrite Ha, IH.
Qed.

Lemma escapeOnce_raw c s :
  isSpecial c = true -> c <> "&"%char -> contains c (escapeOnce s) = false.
Proof.
  intros Hs Hc. induction s as [|a s IH]; [reflexivity|]. simpl.
  rewrite contains_app, IH, orb_false_r.
  destruct (escapeChar_cases a) as [[Ha ->]|(_ & _ & rest & -> & Hall)].
  - cbn [contains]. rewrite orb_false_r. apply Ascii.eqb_neq. congruence.
  - cbn [contains]. apply orb_false_iff. split; [apply Ascii.eqb_neq; congruence|].
    apply (all_not_contains _ _ _ Hall). now rewrite Hs.
Qed.

(** X1. Whatever the input, the sanitized text contains no raw [<], [>],
    double quote or apostrophe. *)
Theorem sanitizeText_no_raw (text : value) :
  contains "<" (sanitizeText text) = false
  /\ contains ">" (sanitizeText text) = false
  /\ contains quote (sanitizeText text) = false
  /\ contains apostrophe (sanitizeText text) = false.
Proof.
  assert (G : forall c, isSpecial c = true -> c <> "&"%char ->
                contains c (sanitizeText text) = false).
  { intros c Hs Hc. unfold sanitizeText.
    destruct (negb (Js.truthy text) || negb (type_eqb (Js.typeof text) Js.TString));
      [reflexivity|].
    unfold trim. apply contains_trimEnd, contains_trimStart.
    rewrite escapeHtml_escapeOnce. now apply escapeOnce_raw. }
  repeat split; apply G; (reflexivity || discriminate).
Qed.

Lemma escapeChar_blank c : isWhiteSpace c = true -> escapeChar c = String c "".
Proof.
  intros H. destruct (escapeChar_cases c) as [[_ E]|(_ & E & _)]; congruence.
Qed.

Lemma escapeChar_first c :
  exists a rest, escapeChar c = String a rest
                 /\ (isWhiteSpace c = false -> isWhiteSpace a = false).
Proof.
  destruct (escapeChar_cases c) as [[_ ->]|(_ & _ & rest & -> & _)]; eauto.
Qed.

Lemma trimStart_escapeOnce s : trimStart (escapeOnce s) = escapeOnce (trimStart s).
Proof.
  induction s as [|c s IH]; [reflexivity|].
  cbn [escapeOnce trimStart]. destruct (isWhiteSpace c) eqn:E.
  - rewrite (escapeChar_blank c E). cbn [append trimStart]. now rewrite E.
  - destruct (escapeChar_first c) as (a & rest & Ea & Ha). rewrite Ea.
    cbn [append trimStart escapeOnce]. rewrite (Ha E), Ea. reflexivity.
Qed.

Lemma trimEnd_app a b :
  trimEnd (a +:+ b)
  = match trimEnd b with EmptyString => trimEnd a | t => a +:+ t end.
Proof.
  induction a as [|x a IH]; cbn [append trimEnd].
  - now destruct (trimEnd b).
  - rewrite IH. destruct (trimEnd b) as [|y t]; [reflexivity|].
    now destruct a.
Qed.

Lemma trimEnd_escapeChar c :
  isWhiteSpace c = false -> trimEnd (escapeChar c) = escapeChar c.
Proof.
  intros H. unfold escapeChar.
  destruct (Ascii.eqb c "&"); [reflexivity|].
  destruct (Ascii.eqb c "<"); [reflexivity|].
  destruct (Ascii.eqb c ">"); [reflexivity|].
  destruct (Ascii.eqb c quote); [reflexivity|].
  destruct (Ascii.eqb c apostrophe); [reflexivity|].
  cbn [trimEnd]. now rewrite H.
Qed.

Lemma trimEnd_escapeOnce s : trimEnd (escapeOnce s) = escapeOnce (trimEnd s).
Proof.
  induction s as [|c s IH]; [reflexivity|].
  cbn [escapeOnce trimEnd]. rewrite trimEnd_app, IH.
  destruct (trimEnd s) as [|y t]; cbn [escapeOnce].
  - destruct (isWhiteSpace c) eqn:E.
    + rewrite (escapeChar_blank c E). cbn [trimEnd]. now rewrite E.
    + rewrite (trimEnd_escapeChar c E). cbn [escapeOnce]. now rewrite app_empty_r.
  - destruct (escapeChar_first y) as (a & rest & -> & _). reflexivity.
Qed.

Lemma trim_escapeOnce s : trim (escapeOnce s) = escapeOnce (trim s).
Proof. unfold trim. now rewrite trimStart_escapeOnce, trimEnd_escapeOnce. Qed.

(** X2. Sanitizing a string is escaping, in one pass and character by
    character, the trimmed string: an ampersand that a replacement
    introduces is never escaped again within one call, and trimming before or
    after the replacements gives the same text.  Any other value gives the
    empty string. *)
Theorem sanitizeText_one_pass (text : value) :
  sanitizeText text
  = match text with
    | VStr s => escapeOnce (trim s)
    | _ => ""
    end.
Proof.
  destruct text as [| |b|n|s|o];
    try (apply sanitizeText_not_string; reflexivity).
  destruct (String.eqb_spec s "") as [->|Hs]; [reflexivity|].
  now rewrite (sanitizeText_string s Hs), escapeHtml_escapeOnce, trim_escapeOnce.
Qed.

Lemma length_escapeChar c :
  String.length (escapeChar c)
  = (1 + 4 * (if Ascii.eqb c "&" then 1 else 0)
       + 3 * (if Ascii.eqb c "<" then 1 else 0)
       + 3 * (if Ascii.eqb c ">" then 1 else 0)
       + 5 * (if Ascii.eqb c quote then 1 else 0)
       + 5 * (if Ascii.eqb c apostrophe then 1 else 0))%nat.
Proof.
  unfold escapeChar.
  destruct (Ascii.eqb_spec c "&") as [->|H1]; [reflexivity|].
  destruct (Ascii.eqb_spec c "<") as [->|H2]; [reflexivity|].
  destruct (Ascii.eqb_spec c ">") as [->|H3]; [reflexivity|].
  destruct (Ascii.eqb_spec c quote) as [->|H4]; [reflexivity|].
  destruct (Ascii.eqb_spec c apostrophe) as [->|H5]; reflexivity.
Qed.

Lemma length_escapeOnce s :
  String.length (escapeOnce s)
  = (String.length s + 4 * count "&" s + 3 * count "<" s + 3 * count ">" s
       + 5 * count quote s + 5 * count apostrophe s)%nat.
Proof.
  induction s as [|c s IH]; [reflexivity|].
  cbn [escapeOnce count String.length].
  rewrite length_app_str, IH, length_escapeChar. lia.
Qed.

Lemma count_trimStart c s :
  isWhiteSpace c = false -> count c (trimStart s) = count c s.
Proof.
  intros Hc. induction s as [|a s IH]; [reflexivity|]. cbn [trimStart count].
  destruct (isWhiteSpace a) eqn:Ea; [|reflexivity].
  destruct (Ascii.eqb_spec a c) as [->|_]; [congruence | exact IH].
Qed.

Lemma count_trimEnd c s :
  isWhiteSpace c = false -> count c (trimEnd s) = count c s.
Proof.
  intros Hc. induction s as [|a s IH]; [reflexivity|]. cbn [trimEnd count].
  rewrite <- IH. destruct (trimEnd s) as [|b t]; [|reflexivity].
  destruct (isWhiteSpace a) eqn:Ea; [|reflexivity].
  destruct (Ascii.eqb_spec a c) as [->|_]; [congruence | reflexivity].
Qed.

Lemma count_trim c s : isWhiteSpace c = false -> count c (trim s) = count c s.
Proof.
  intros Hc. unfold trim. now rewrite count_trimEnd, count_trimStart.
Qed.

(** X3. The length that the 4096 and 1024 limits are applied to: the
    sanitized form of a string has the length of the trimmed string plus 4
    for every [&], 3 for every [<] and [>], and 5 for every double quote and
    apostrophe of the input. *)
Theorem sanitizeText_length (s : string) :
  String.length (sanitizeText (VStr s))
  = (String.length (trim s) + 4 * count "&" s + 3 * count "<" s
       + 3 * count ">" s + 5 * count quote s + 5 * count apostrophe s)%nat.
Proof.
  destruct (String.eqb_spec s "") as [->|Hs]; [reflexivity|].
  rewrite (sanitizeText_string s Hs), escapeHtml_escapeOnce, trim_escapeOnce.
  rewrite length_escapeOnce, !count_trim by reflexivity. reflexivity.
Qed.

Lemma inkCount_zero s : inkCount s = 0%nat <-> all isWhiteSpace s = true.
Proof.
  induction s as [|c s IH]; cbn [inkCount all]; [tauto|].
  destruct (isWhiteSpace c); cbn [andb]; [exact IH|].
  split; [intros H; lia | discriminate].
Qed.

Lemma trimStart_blank s : all isWhiteSpace s = true -> trimStart s = "".
Proof.
  induction s as [|c s IH]; cbn [all trimStart]; [reflexivity|].
  intros H. apply andb_true_iff in H as [-> H]. now apply IH.
Qed.

Lemma trim_empty_iff s : trim s = "" <-> all isWhiteSpace s = true.
Proof.
  split.
  - intros H. apply inkCount_zero. rewrite <- inkCount_trim, H. reflexivity.
  - intros H. unfold trim. now rewrite (trimStart_blank s H).
Qed.

Lemma escapeOnce_empty s : escapeOnce s = "" -> s = "".
Proof.
  destruct s as [|c s]; [reflexivity|]. cbn [escapeOnce].
  destruct (escapeChar_first c) as (a & rest & -> & _). discriminate.
Qed.

(** X4. The text that [sendMessage] and [editMessage] report as empty: the
    sanitized text is empty exactly when the input is not a string or is a
    string of white space only (the empty string included). *)
Theorem sanitizeText_empty_iff (text : value) :
  sanitizeText text = ""
  <-> forall s, text = VStr s -> all isWhiteSpace s = true.
Proof.
  destruct text as [| |b|n|s|o];
    try (rewrite sanitizeText_not_string by reflexivity;
         split; [intros _ s E; discriminate | reflexivity]).
  assert (E : sanitizeText (VStr s) = escapeOnce (trim s)).
  { destruct (String.eqb_spec s "") as [->|Hs]; [reflexivity|].
    now rewrite (sanitizeText_string s Hs), escapeHtml_escapeOnce, trim_escapeOnce. }
  rewrite E. split.
  - intros H s' [= <-]. apply trim_empty_iff. now apply escapeOnce_empty.
  - intros H. specialize (H s eq_refl). apply trim_empty_iff in H. now rewrite H.
Qed.

Lemma firstChar_trimStart s c :
  firstChar (trimStart s) = Some c -> isWhiteSpace c = false.
Proof.
  induction s as [|a s IH]; cbn [trimStart firstChar]; [discriminate|].
  destruct (isWhiteSpace a) eqn:E; [exact IH|].
  cbn [firstChar]. intros [= <-]. exact E.
Qed.

Lemma firstChar_trimEnd s c :
  firstChar (trimEnd s) = Some c -> firstChar s = Some c.
Proof.
  destruct s as [|a s]; cbn [trimEnd firstChar]; [discriminate|].
  destruct (trimEnd s); [destruct (isWhiteSpace a)|]; cbn [firstChar];
    congruence.
Qed.

Lemma lastChar_trimEnd s c :
  lastChar (trimEnd s) = Some c -> isWhiteSpace c = false.
Proof.
  induction s as [|a s IH]; cbn [trimEnd lastChar]; [discriminate|].
  destruct (trimEnd s) as [|b t].
  - destruct (isWhiteSpace a) eqn:E; cbn [lastChar]; [discriminate|].
    intros [= <-]. exact E.
  - exact IH.
Qed.

(** X5. Whatever the input, the sanitized text neither begins nor ends with
    white space. *)
Theorem sanitizeText_trimmed (text : value) : Trimmed (sanitizeText text).
Proof.
  unfold sanitizeText.
  destruct (negb (Js.truthy text) || negb (type_eqb (Js.typeof text) Js.TString)).
  - split; intros c H; discriminate.
  - unfold trim. split; intros c H.
    + apply firstChar_trimEnd in H. now apply firstChar_trimStart in H.
    + now apply lastChar_trimEnd in H.
Qed.

Lemma replaceAll_absent c by_ s : contains c s = false -> replaceAll c by_ s = s.
Proof.
  induction s as [|a s IH]; cbn [contains replaceAll]; [reflexivity|].
  intros H. apply orb_false_iff in H as [-> H]. now rewrite IH.
Qed.

(** X6. A string without any of the five special characters is only
    trimmed: the sanitizer changes nothing else in it. *)
Theorem sanitizeText_plain (s : string)
    (Hplain : forall c, isSpecial c = true -> contains c s = false) :
  sanitizeText (VStr s) = trim s.
Proof.
  destruct (String.eqb_spec s "") as [->|Hs]; [reflexivity|].
  rewrite (sanitizeText_string s Hs). unfold escapeHtml.
  rewrite (replaceAll_absent "&"), (replaceAll_absent "<"),
    (replaceAll_absent ">"), (replaceAll_absent quote),
    (replaceAll_absent apostrophe); auto.
Qed.

Lemma sanitizeText_plain_witness :
  (forall c, isSpecial c = true -> contains c "  Hello, world  " = false)
  /\ sanitizeText (VStr "  Hello, world  ") = "Hello, world".
Proof.
  assert (H : forall c, isSpecial c = true -> contains c "  Hello, world  " = false).
  { intros c Hc. apply (all_not_contains (fun a => negb (isSpecial a)));
      [reflexivity | now rewrite Hc]. }
  split; [exact H | exact (sanitizeText_plain "  Hello, world  " H)].
Defined.

(* ===================================================================== *)
(** ** Further properties of the validators *)
(* ===================================================================== *)

Lemma validateBotToken_shape token :
  validateBotToken token = true -> exists s, token = VStr s /\ TokenShape s.
Proof.
  unfold validateBotToken.
  destruct (negb (Js.truthy token) || negb (type_eqb (Js.typeof token) Js.TString))
    eqn:E; [discriminate|].
  apply orb_false_iff in E as [_ E]. apply negb_false_iff in E.
  destruct token as [| |b|n|s|o]; try discriminate.
  cbn [Js.toString]. rewrite test_spec, tokenRegex_language. eauto.
Qed.

Lemma tokenShape_first s :
  TokenShape s -> exists c rest, s = String c rest /\ digit c = true.
Proof.
  intros (botId & secret & -> & [L _] & A & _).
  destruct botId as [|c botId]; [simpl in L; lia|].
  cbn [all] in A. apply andb_true_iff in A as [Hc _].
  exists c, (botId +:+ String ":" secret). auto.
Qed.

Lemma tokenShape_not_digits s : TokenShape s -> all digit s = false.
Proof.
  intros (botId & secret & -> & _). rewrite all_app. cbn [all].
  change (digit ":") with false. cbn [andb]. apply andb_false_r.
Qed.

(** X7. A bot token is never a valid chat identifier: a value that passes
    [validateBotToken] fails [validateChatId], so a token passed where the
    chat identifier belongs is rejected before any request. *)
Theorem token_is_no_chat_id (v : value)
    (Htoken : validateBotToken v = true) :
  validateChatId v = false.
Proof.
  destruct (validateBotToken_shape v Htoken) as (s & -> & Hs).
  destruct (validateChatId (VStr s)) eqn:E; [exfalso | reflexivity].
  apply validateChatId_string in E.
  destruct (tokenShape_first s Hs) as (c & rest & Es & Hc).
  pose proof (tokenShape_not_digits s Hs) as Hd.
  destruct E as [(digits & [->| ->] & _ & A)|(first & rest' & -> & _)].
  - congruence.
  - injection Es as <- _. discriminate.
  - injection Es as <- _. discriminate.
Qed.

Lemma token_is_no_chat_id_witness :
  validateBotToken sampleToken = true /\ validateChatId sampleToken = false.
Proof.
  split; [reflexivity | exact (token_is_no_chat_id sampleToken eq_refl)].
Defined.

(* ===================================================================== *)
(** ** Further properties of the request builder *)
(* ===================================================================== *)

Lemma telegramApiRequest_rejects this method endpoint body qs headers botToken tr :
  validateBotToken botToken = false ->
  telegramApiRequest this method endpoint body qs headers botToken tr
  = (inl (tokenError botToken), tr).
Proof.
  intros H. unfold telegramApiRequest, tokenError.
  destruct (Js.truthy botToken); cbn [negb]; [now rewrite H | reflexivity].
Qed.

Lemma telegramApiRequest_sends this method endpoint body qs headers botToken tr :
  validateBotToken botToken = true ->
  telegramApiRequest this method endpoint body qs headers botToken tr
  = (match helpers_request this tr
             (requestOptions method endpoint body qs headers botToken) with
     | inr response =>
         if Js.truthy (get response "ok") then inr response
         else inl (ApiError response)
     | inl error => inl (translateException error)
     end,
     (tr ++ [requestOptions method endpoint body qs headers botToken])%list).
Proof.
  intros H. unfold telegramApiRequest.
  rewrite (validateBotToken_truthy _ H), H. cbn [negb]. unfold request.
  fold (requestOptions method endpoint body qs headers botToken).
  destruct (helpers_request this tr _) as [error|response]; [reflexivity|].
  now destruct (Js.truthy (get response "ok")).
Qed.

(** X8. [telegramApiRequest] hands exactly one request to the transport
    when the token passes [validateBotToken] and none otherwise.  The
    request goes to [https://api.telegram.org/bot<token><endpoint>] with the
    given method, body and query, a JSON content type unless the caller's
    headers set another, and a timeout of 30000 ms. *)
Theorem telegramApiRequest_trace
    (this : IExecuteFunctions) (method endpoint : string)
    (body qs headers : gmap string value) (botToken : value) (tr : Trace) :
  snd (telegramApiRequest this method endpoint body qs headers botToken tr)
  = (if validateBotToken botToken
     then tr ++ [ {| method := method;
                     headers := match headers !! "Content-Type" with
                                | Some _ => headers
                                | None => <[ "Content-Type" := VStr "application/json" ]> headers
                                end;
                     body := body;
                     qs := qs;
                     url := "https://api.telegram.org/bot"
                              +:+ Js.toString botToken +:+ endpoint;
                     json := true;
                     timeout := 30000 |} ]
     else tr)%list.
Proof.
  destruct (validateBotToken botToken) eqn:H.
  - rewrite (telegramApiRequest_sends _ _ _ _ _ _ _ _ H). cbn [snd].
    unfold requestOptions. do 3 f_equal. unfold assign.
    destruct (headers !! "Content-Type") as [v|] eqn:E.
    + apply map_eq. intros k. destruct (headers !! k) as [w|] eqn:Ek.
      * now apply lookup_union_Some_l.
      * rewrite lookup_union_r by assumption.
        destruct (decide (k = "Content-Type")) as [->|Hk]; [congruence|].
        now rewrite lookup_singleton_ne.
    + apply map_eq. intros k.
      destruct (decide (k = "Content-Type")) as [->|Hk].
      * rewrite lookup_union_r by assumption.
        now rewrite lookup_singleton_eq, lookup_insert_eq.
      * rewrite lookup_insert_ne by congruence.
        destruct (headers !! k) as [w|] eqn:Ek.
        -- now apply lookup_union_Some_l.
        -- rewrite lookup_union_r by assumption. now rewrite lookup_singleton_ne.
  - now rewrite (telegramApiRequest_rejects _ _ _ _ _ _ _ _ H).
Qed.

(** X9. [telegramApiRequest] returns a response exactly when the token is
    valid and the transport answered the request with that response and a
    truthy [ok]: a response whose [ok] is false, missing or otherwise falsy
    is never returned. *)
Theorem telegramApiRequest_success
    (this : IExecuteFunctions) (method endpoint : string)
    (body qs headers : gmap string value) (botToken : value) (tr : Trace)
    (response : gmap string value) :
  fst (telegramApiRequest this method endpoint body qs headers botToken tr)
    = inr response
  <-> validateBotToken botToken = true
      /\ helpers_request this tr
           (requestOptions method endpoint body qs headers botToken)
         = inr response
      /\ Js.truthy (get response "ok") = true.
Proof.
  destruct (validateBotToken botToken) eqn:H.
  - rewrite (telegramApiRequest_sends _ _ _ _ _ _ _ _ H). cbn [fst].
    destruct (helpers_request this tr _) as [error|r].
    + split; [discriminate | intros (_ & E & _); discriminate].
    + destruct (Js.truthy (get r "ok")) eqn:Hok.
      * split; [intros [= <-]; auto | intros (_ & [= <-] & _); reflexivity].
      * split; [discriminate | intros (_ & [= <-] & E); congruence].
  - rewrite (telegramApiRequest_rejects _ _ _ _ _ _ _ _ H). cbn [fst].
    split; [discriminate | intros (E & _); discriminate].
Qed.

#[local] Set Warnings "-clear-no-such-hyp".

(** X10. How [telegramApiRequest] fails.  Without a valid token it fails
    with [MissingToken] for a falsy token and [InvalidTokenFormat] for any
    other.  With one, it fails with [ApiError] exactly when the transport
    answered with a falsy [ok]; with [ConnectionRefused] or [Timeout] exactly
    when the transport threw with code [ECONNREFUSED] or [ETIMEDOUT]; and
    with [RequestFailed], carrying the exception, exactly when it threw with
    another code or none. *)
Theorem telegramApiRequest_failure
    (this : IExecuteFunctions) (method endpoint : string)
    (body qs headers : gmap string value) (botToken : value) (tr : Trace) :
  let r := fst (telegramApiRequest this method endpoint body qs headers botToken tr) in
  let answer := helpers_request this tr
                  (requestOptions method endpoint body qs headers botToken) in
  (validateBotToken botToken = false ->
     r = inl (if Js.truthy botToken then InvalidTokenFormat None
              else MissingToken None))
  /\ (validateBotToken botToken = true ->
      (forall response,
         r = inl (ApiError response)
         <-> answer = inr response /\ Js.truthy (get response "ok") = false)
      /\ (r = inl ConnectionRefused
          <-> exists error, answer = inl error
                /\ exc_code error = Some "ECONNREFUSED")
      /\ (r = inl Timeout
          <-> exists error, answer = inl error
                /\ exc_code error = Some "ETIMEDOUT")
      /\ (forall error,
            r = inl (RequestFailed error)
            <-> answer = inl error
                /\ exc_code error <> Some "ECONNREFUSED"
                /\ exc_code error <> Some "ETIMEDOUT")).
Proof.
  intros r answer. split.
  - intros H. subst r. now rewrite (telegramApiRequest_rejects _ _ _ _ _ _ _ _ H).
  - intros H. subst r. rewrite (telegramApiRequest_sends _ _ _ _ _ _ _ _ H).
    cbn [fst]. fold answer. destruct answer as [error|response].
    + unfold translateException.
      destruct (exc_code error) as [code|] eqn:Ec;
        [destruct (String.eqb_spec code "ECONNREFUSED") as [->|H1];
           [|destruct (String.eqb_spec code "ETIMEDOUT") as [->|H2]]|];
        repeat split; naive_solver congruence.
    + destruct (Js.truthy (get response "ok")) eqn:Hok;
        repeat split; naive_solver congruence.
Qed.

Lemma telegramApiRequest_failure_witness :
  let this := hostAnswering (inr chatNotFound) (fun _ => ∅) 1 false in
  validateBotToken sampleToken = true
  /\ validateBotToken (VStr "12345:short") = false
  /\ fst (telegramApiRequest this "POST" "/getChat" ∅ ∅ ∅ sampleToken [])
     = inl (ApiError chatNotFound)
  /\ fst (telegramApiRequest this "POST" "/getChat" ∅ ∅ ∅ (VStr "12345:short") [])
     = inl (InvalidTokenFormat None).
Proof.
  intros this.
  destruct (telegramApiRequest_failure this "POST" "/getChat" ∅ ∅ ∅ sampleToken [])
    as [_ Hvalid].
  destruct (Hvalid eq_refl) as (Hapi & _).
  destruct (telegramApiRequest_failure this "POST" "/getChat" ∅ ∅ ∅
              (VStr "12345:short") []) as [Hinvalid _].
  split; [reflexivity | split; [reflexivity | split]].
  - apply Hapi. split; reflexivity.
  - exact (Hinvalid eq_refl).
Defined.

(* ===================================================================== *)
(** ** Further properties of the operation functions *)
(* ===================================================================== *)

(** Once the chat identifier is known to be valid, handing a body to
    [telegramApiRequest] keeps the discipline. *)
Lemma request_disciplined this endpoint body chatId botToken tr :
  validateChatId chatId = true ->
  Disciplined tr chatId botToken endpoint
    (telegramApiRequest this "POST" endpoint body ∅ ∅ botToken tr).
Proof.
  intros Hchat. unfold Disciplined.
  destruct (validateBotToken botToken) eqn:H.
  - right. rewrite (telegramApiRequest_sends _ _ _ _ _ _ _ _ H). cbn [fst snd].
    eexists. split; [reflexivity|]. repeat (split; [reflexivity || assumption|]).
    destruct (helpers_request this tr _) as [error|response].
    + right. eexists. split; [reflexivity|]. unfold translateException.
      destruct (exc_code error) as [code|]; [|exact I].
      destruct (String.eqb code "ECONNREFUSED"); [exact I|].
      destruct (String.eqb code "ETIMEDOUT"); exact I.
    + destruct (Js.truthy (get response "ok")) eqn:Hok.
      * left. eauto.
      * right. eexists. split; [reflexivity | exact I].
  - left. rewrite (telegramApiRequest_rejects _ _ _ _ _ _ _ _ H). cbn [fst snd].
    split; [reflexivity|]. eexists. split; [reflexivity|]. right. auto.
Qed.

Lemma argument_error_disciplined tr chatId botToken endpoint e :
  ArgumentError e ->
  Disciplined tr chatId botToken endpoint (inl e, tr).
Proof. intros H. left. cbn [fst snd]. eauto. Qed.

Lemma caption_disciplined this m endpoint body chatId botToken tr :
  validateChatId chatId = true ->
  Disciplined tr chatId botToken endpoint
    ((let* body := sanitizeCaption m body in
      telegramApiRequest this "POST" endpoint body ∅ ∅ botToken) tr).
Proof.
  intros Hchat. unfold bind, sanitizeCaption.
  destruct (Js.truthy (get body "caption")
            && type_eqb (Js.typeof (get body "caption")) Js.TString).
  - destruct (1024 <? String.length (sanitizeText (get body "caption")))%nat.
    + now apply argument_error_disciplined.
    + now apply request_disciplined.
  - now apply request_disciplined.
Qed.

Lemma message_operations_disciplined this chatId text messageId botToken
    additionalFields tr :
  Disciplined tr chatId botToken "/sendMessage"
    (sendMessage this chatId text botToken additionalFields tr)
  /\ Disciplined tr chatId botToken "/editMessageText"
       (editMessage this chatId messageId text botToken additionalFields tr)
  /\ Disciplined tr chatId botToken "/deleteMessage"
       (deleteMessage this chatId messageId botToken tr).
Proof.
  unfold sendMessage, editMessage, deleteMessage.
  destruct (validateChatId chatId) eqn:Hchat; cbn [negb];
    [|repeat split; now apply argument_error_disciplined].
  destruct (negb (Js.truthy messageId)
            || negb (type_eqb (Js.typeof messageId) Js.TNumber));
    destruct (negb (Js.truthy (VStr (sanitizeText text))));
    destruct (4096 <? String.length (sanitizeText text))%nat;
    repeat split;
    first [ now apply argument_error_disciplined | now apply request_disciplined ].
Qed.

Lemma media_operations_disciplined this chatId media botToken additionalFields tr :
  Disciplined tr chatId botToken "/sendPhoto"
    (sendPhoto this chatId media botToken additionalFields tr)
  /\ Disciplined tr chatId botToken "/sendDocument"
       (sendDocument this chatId media botToken additionalFields tr).
Proof.
  unfold sendPhoto, sendDocument.
  destruct (validateChatId chatId) eqn:Hchat; cbn [negb];
    [|split; now apply argument_error_disciplined].
  destruct (negb (Js.truthy media)); split;
    first [ now apply argument_error_disciplined | now apply caption_disciplined ].
Qed.

Lemma chat_operations_disciplined this chatId botToken tr :
  Disciplined tr chatId botToken "/getChat" (getChat this chatId botToken tr)
  /\ Disciplined tr chatId botToken "/getChatAdministrators"
       (getChatAdministrators this chatId botToken tr).
Proof.
  unfold getChat, getChatAdministrators.
  destruct (validateChatId chatId) eqn:Hchat; cbn [negb]; split;
    first [ now apply argument_error_disciplined | now apply request_disciplined ].
Qed.

(** X11. Each of the seven operation functions either fails on one of its
    arguments or on the token without calling the transport, or calls the
    transport exactly once: then the chat identifier and the token are
    valid, the request is a [POST] to the endpoint of the operation under
    that token, and the call ends with a response whose [ok] is truthy or
    with an error of the transport.  So no argument error ever follows a
    request, and no request is ever made for an invalid chat identifier or
    token. *)
Theorem operations_disciplined
    (this : IExecuteFunctions)
    (chatId text messageId media botToken additionalFields : value) (tr : Trace) :
  Disciplined tr chatId botToken "/sendMessage"
    (sendMessage this chatId text botToken additionalFields tr)
  /\ Disciplined tr chatId botToken "/editMessageText"
       (editMessage this chatId messageId text botToken additionalFields tr)
  /\ Disciplined tr chatId botToken "/deleteMessage"
       (deleteMessage this chatId messageId botToken tr)
  /\ Disciplined tr chatId botToken "/sendPhoto"
       (sendPhoto this chatId media botToken additionalFields tr)
  /\ Disciplined tr chatId botToken "/sendDocument"
       (sendDocument this chatId media botToken additionalFields tr)
  /\ Disciplined tr chatId botToken "/getChat"
       (getChat this chatId botToken tr)
  /\ Disciplined tr chatId botToken "/getChatAdministrators"
       (getChatAdministrators this chatId botToken tr).
Proof.
  destruct (message_operations_disciplined this chatId text messageId botToken
              additionalFields tr) as (Hsend & Hedit & Hdelete).
  destruct (media_operations_disciplined this chatId media botToken
              additionalFields tr) as (Hphoto & Hdocument).
  destruct (chat_operations_disciplined this chatId botToken tr) as (Hget & Hadmins).
  repeat split; assumption.
Qed.

Lemma caption_step_not_missing this m endpoint body botToken tr m' :
  fst ((let* body := sanitizeCaption m body in
        telegramApiRequest this "POST" endpoint body ∅ ∅ botToken) tr)
  <> inl (MissingMedia m').
Proof.
  unfold bind, sanitizeCaption. intros H.
  destruct (Js.truthy (get body "caption")
            && type_eqb (Js.typeof (get body "caption")) Js.TString);
    [destruct (1024 <? String.length (sanitizeText (get body "caption")))%nat;
       [discriminate|]|];
    stage_contradiction H.
Qed.

(** X12. With a valid chat identifier, [sendPhoto] and [sendDocument] fail
    with [MissingMedia] exactly when the media reference is falsy (the empty
    string, [undefined], [null], 0), and then without calling the transport
    and whatever the additional fields contain. *)
Theorem missing_media
    (this : IExecuteFunctions) (chatId : value)
    (Hvalid : validateChatId chatId = true)
    (media botToken additionalFields : value) (tr : Trace) :
  (Js.truthy media = false ->
     sendPhoto this chatId media botToken additionalFields tr
       = (inl (MissingMedia Photo), tr)
     /\ sendDocument this chatId media botToken additionalFields tr
       = (inl (MissingMedia Document), tr))
  /\ (forall m,
        fst (sendPhoto this chatId media botToken additionalFields tr)
          = inl (MissingMedia m)
        \/ fst (sendDocument this chatId media botToken additionalFields tr)
          = inl (MissingMedia m) ->
        Js.truthy media = false).
Proof.
  unfold sendPhoto, sendDocument. rewrite Hvalid. cbn [negb].
  destruct (Js.truthy media); cbn [negb].
  - split; [discriminate|]. intros m [H|H]; exfalso;
      exact (caption_step_not_missing _ _ _ _ _ _ _ H).
  - split; [auto | reflexivity].
Qed.

Lemma missing_media_witness :
  let this := sampleHost (fun _ => ∅) 1 false in
  let chatId := VStr "@validchannel" in
  let additionalFields := VObj {[ "photo" := VStr "https://example.org/cat.png" ]} in
  validateChatId chatId = true
  /\ Js.truthy (VStr "") = false
  /\ sendPhoto this chatId (VStr "") sampleToken additionalFields []
     = (inl (MissingMedia Photo), []).
Proof.
  intros this chatId additionalFields.
  destruct (missing_media this chatId eq_refl (VStr "") sampleToken
              additionalFields []) as [H _].
  split; [reflexivity | split; [reflexivity | exact (proj1 (H eq_refl))]].
Defined.

(** X13. [getChat], [getChatAdministrators] and [deleteMessage] take no
    additional fields: when their checks and the token check pass, the one
    request they make carries exactly the given chat identifier (and message
    identifier) as its body, and otherwise they make no request. *)
Theorem fixed_body_requests
    (this : IExecuteFunctions) (chatId messageId botToken : value) (tr : Trace) :
  snd (getChat this chatId botToken tr)
    = (if validateChatId chatId && validateBotToken botToken
       then tr ++ [requestOptions "POST" "/getChat"
                     {[ "chat_id" := chatId ]} ∅ ∅ botToken]
       else tr)%list
  /\ snd (getChatAdministrators this chatId botToken tr)
    = (if validateChatId chatId && validateBotToken botToken
       then tr ++ [requestOptions "POST" "/getChatAdministrators"
                     {[ "chat_id" := chatId ]} ∅ ∅ botToken]
       else tr)%list
  /\ snd (deleteMessage this chatId messageId botToken tr)
    = (if validateChatId chatId && messageIdAccepted messageId
          && validateBotToken botToken
       then tr ++ [requestOptions "POST" "/deleteMessage"
                     {[ "chat_id" := chatId; "message_id" := messageId ]}
                     ∅ ∅ botToken]
       else tr)%list.
Proof.
  unfold getChat, getChatAdministrators, deleteMessage, messageIdAccepted.
  destruct (validateChatId chatId); cbn [negb andb]; [|repeat split].
  destruct (Js.truthy messageId); cbn [negb andb orb];
    [destruct (type_eqb (Js.typeof messageId) Js.TNumber); cbn [negb andb]|];
    destruct (validateBotToken botToken) eqn:H;
    rewrite ?(telegramApiRequest_sends _ _ _ _ _ _ _ _ H),
            ?(telegramApiRequest_rejects _ _ _ _ _ _ _ _ H);
    repeat split.
Qed.

(* ===================================================================== *)
(** ** Further properties of the dispatcher *)
(* ===================================================================== *)

Lemma resolveToken_cases this i tr :
  resolveToken this i tr
  = (match getNodeParameter this "authMethod" i with
     | inl e => inl (HostError e)
     | inr authMethod =>
         if strictEq authMethod "credentials" then
           match getCredentials this "telegramMultiApi" i with
           | inl e => inl (HostError e)
           | inr credentials => inr (get credentials "accessToken")
           end
         else if strictEq authMethod "environment" then
           match getNodeParameter this "envToken" i with
           | inl e => inl (HostError e)
           | inr v => inr v
           end
         else if strictEq authMethod "direct" then
           match getNodeParameter this "directToken" i with
           | inl e => inl (HostError e)
           | inr v => inr v
           end
         else inl (UnknownAuthMethod authMethod i)
     end, tr).
Proof.
  unfold resolveToken, bind. rewrite host_run.
  destruct (getNodeParameter this "authMethod" i) as [e|authMethod]; [reflexivity|].
  destruct (strictEq authMethod "credentials").
  { rewrite host_run. destruct (getCredentials this "telegramMultiApi" i); reflexivity. }
  destruct (strictEq authMethod "environment").
  { rewrite host_run. destruct (getNodeParameter this "envToken" i); reflexivity. }
  destruct (strictEq authMethod "direct").
  { rewrite host_run. destruct (getNodeParameter this "directToken" i); reflexivity. }
  reflexivity.
Qed.

(** X14. When the authentication method of an item can be read, reading the
    token fails with [UnknownAuthMethod] exactly when the method is none of
    ["credentials"], ["environment"] and ["direct"]; the error carries the
    method and the index of the item, and the item then fails with it
    without any request. *)
Theorem unknown_auth_method
    (this : IExecuteFunctions) (i : nat) (tr : Trace) (authMethod : value)
    (Hread : getNodeParameter this "authMethod" i = inr authMethod) :
  (knownAuthMethod authMethod = false ->
     resolveToken this i tr = (inl (UnknownAuthMethod authMethod i), tr)
     /\ processItem this i tr = (inl (UnknownAuthMethod authMethod i), tr))
  /\ (forall a j,
        fst (resolveToken this i tr) = inl (UnknownAuthMethod a j) ->
        a = authMethod /\ j = i /\ knownAuthMethod authMethod = false).
Proof.
  unfold processItem, bind. rewrite resolveToken_cases, Hread. cbn [fst].
  unfold knownAuthMethod.
  destruct (strictEq authMethod "credentials"); cbn [orb].
  { split; [discriminate|]. intros a j H.
    destruct (getCredentials this "telegramMultiApi" i); discriminate. }
  destruct (strictEq authMethod "environment"); cbn [orb].
  { split; [discriminate|]. intros a j H.
    destruct (getNodeParameter this "envToken" i); discriminate. }
  destruct (strictEq authMethod "direct"); cbn [orb].
  { split; [discriminate|]. intros a j H.
    destruct (getNodeParameter this "directToken" i); discriminate. }
  split; [auto|]. intros a j [= <- <-]. auto.
Qed.

Lemma unknown_auth_method_witness :
  let item := <[ "authMethod" := VStr "oauth" ]> (sampleItem "@validchannel") in
  let this := sampleHost (fun _ => item) 1 true in
  getNodeParameter this "authMethod" 0 = inr (VStr "oauth")
  /\ knownAuthMethod (VStr "oauth") = false
  /\ processItem this 0 [] = (inl (UnknownAuthMethod (VStr "oauth") 0), [])
  /\ errorText (UnknownAuthMethod (VStr "oauth") 0)
     = "Invalid authentication method: oauth".
Proof.
  intros item this.
  destruct (unknown_auth_method this 0 [] (VStr "oauth") eq_refl) as [H _].
  split; [reflexivity | split; [reflexivity | split; [|reflexivity]]].
  exact (proj2 (H eq_refl)).
Defined.

(** X15. An item whose token is read but fails [validateBotToken] ends
    before any other parameter matters and without any request: with
    [MissingToken] when the token is falsy (empty, [undefined], as for a
    credential without [accessToken]) and with [InvalidTokenFormat]
    otherwise, both carrying the index of the item. *)
Theorem item_token_gate
    (this : IExecuteFunctions) (i : nat) (tr : Trace) (botToken : value)
    (Htoken : fst (resolveToken this i tr) = inr botToken)
    (Hinvalid : validateBotToken botToken = false) :
  processItem this i tr
  = (inl (if Js.truthy botToken then InvalidTokenFormat (Some i)
          else MissingToken (Some i)), tr).
Proof.
  unfold processItem, bind.
  pose proof (resolveToken_trace this i tr) as Htrace.
  destruct (resolveToken this i tr) as [r tr'].
  cbn [fst snd] in Htoken, Htrace. subst r tr'.
  destruct (Js.truthy botToken); cbn [negb]; [now rewrite Hinvalid | reflexivity].
Qed.

Lemma item_token_gate_witness :
  let item := <[ "directToken" := VStr "12345:short" ]> (sampleItem "@validchannel") in
  let this := sampleHost (fun _ => item) 1 true in
  fst (resolveToken this 0 []) = inr (VStr "12345:short")
  /\ validateBotToken (VStr "12345:short") = false
  /\ processItem this 0 [] = (inl (InvalidTokenFormat (Some 0)), []).
Proof.
  intros item this.
  split; [reflexivity | split; [reflexivity|]].
  exact (item_token_gate this 0 [] (VStr "12345:short") eq_refl eq_refl).
Defined.

Lemma argumentError_item i e :
  ArgumentError e -> ItemError i e /\ ~ TransportError e.
Proof. destruct e; cbn; tauto. Qed.

Lemma failed_item_disciplined i tr e :
  ItemError i e -> ~ TransportError e -> ItemDisciplined i tr (inl e, tr).
Proof.
  intros H1 H2. left. cbn [fst snd]. split; [reflexivity|].
  left. exists e. auto.
Qed.

Lemma disciplined_item i tr chatId botToken endpoint r :
  validateBotToken botToken = true ->
  Disciplined tr chatId botToken endpoint r -> ItemDisciplined i tr r.
Proof.
  intros Htoken [(Htr & e & He & [Ha|[Hn _]])|(options & Htr & _ & _ & Hm & _ & Hr)].
  - left. split; [exact Htr|]. left. exists e.
    destruct (argumentError_item i e Ha). auto.
  - congruence.
  - right. exists options. auto.
Qed.

Lemma host_item_disciplined {A} i tr (x : Exception + A)
    (k : A -> M (gmap string value)) :
  (forall a, ItemDisciplined i tr (k a tr)) ->
  ItemDisciplined i tr ((let* a := host x in k a) tr).
Proof.
  intros Hk. unfold bind. rewrite host_run. destruct x as [e|a]; [|apply Hk].
  apply failed_item_disciplined; cbn; tauto.
Qed.

Lemma resolveToken_errors this i tr e :
  fst (resolveToken this i tr) = inl e -> ItemError i e /\ ~ TransportError e.
Proof.
  rewrite resolveToken_cases. cbn [fst].
  destruct (getNodeParameter this "authMethod" i) as [e0|authMethod];
    [intros [= <-]; cbn; tauto|].
  destruct (strictEq authMethod "credentials").
  { destruct (getCredentials this "telegramMultiApi" i);
      [intros [= <-]; cbn; tauto | discriminate]. }
  destruct (strictEq authMethod "environment").
  { destruct (getNodeParameter this "envToken" i);
      [intros [= <-]; cbn; tauto | discriminate]. }
  destruct (strictEq authMethod "direct").
  { destruct (getNodeParameter this "directToken" i);
      [intros [= <-]; cbn; tauto | discriminate]. }
  intros [= <-]. cbn. tauto.
Qed.

(** Processing one item keeps the discipline of the operations. *)
Lemma processItem_disciplined this i tr :
  ItemDisciplined i tr (processItem this i tr).
Proof.
  unfold processItem. unfold bind at 1.
  pose proof (resolveToken_trace this i tr) as Htrace.
  pose proof (resolveToken_errors this i tr) as Herrors.
  destruct (resolveToken this i tr) as [[e|botToken] tr'];
    cbn [fst snd] in Htrace, Herrors; subst tr'.
  { destruct (Herrors e eq_refl). now apply failed_item_disciplined. }
  destruct (Js.truthy botToken); cbn [negb];
    [|apply failed_item_disciplined; cbn; tauto].
  destruct (validateBotToken botToken) eqn:Htoken; cbn [negb];
    [|apply failed_item_disciplined; cbn; tauto].
  repeat (apply host_item_disciplined; intros ?).
  repeat match goal with
         | |- context [strictEq ?v ?l] => destruct (strictEq v l)
         end;
    repeat (apply host_item_disciplined; intros ?);
    try (left; split; reflexivity || (right; reflexivity));
    match goal with
    | |- ItemDisciplined _ _ (sendMessage _ ?c ?t _ ?f _) =>
        destruct (message_operations_disciplined this c t VUndefined botToken f tr)
          as (H & _)
    | |- ItemDisciplined _ _ (editMessage _ ?c ?m ?t _ ?f _) =>
        destruct (message_operations_disciplined this c t m botToken f tr)
          as (_ & H & _)
    | |- ItemDisciplined _ _ (deleteMessage _ ?c ?m _ _) =>
        destruct (message_operations_disciplined this c VUndefined m botToken
                    VUndefined tr) as (_ & _ & H)
    | |- ItemDisciplined _ _ (sendPhoto _ ?c ?p _ ?f _) =>
        destruct (media_operations_disciplined this c p botToken f tr) as (H & _)
    | |- ItemDisciplined _ _ (sendDocument _ ?c ?p _ ?f _) =>
        destruct (media_operations_disciplined this c p botToken f tr) as (_ & H)
    | |- ItemDisciplined _ _ (getChat _ ?c _ _) =>
        destruct (chat_operations_disciplined this c botToken tr) as (H & _)
    | |- ItemDisciplined _ _ (getChatAdministrators _ ?c _ _) =>
        destruct (chat_operations_disciplined this c botToken tr) as (_ & H)
    end;
    exact (disciplined_item _ _ _ _ _ _ Htoken H).
Qed.

(** X16. The errors of an item.  When processing the item of index [i]
    fails, the error is an error of the host, an error of [execute] carrying
    the index [i], an argument error of an operation or an error of the
    transport; it is never the token error of [telegramApiRequest], whose
    check [execute] has already made.  Only an error of the transport comes
    after a request: any other failure has made none. *)
Theorem item_failures
    (this : IExecuteFunctions) (i : nat) (tr : Trace) (e : Error)
    (Hfails : fst (processItem this i tr) = inl e) :
  ItemError i e
  /\ ((~ TransportError e /\ snd (processItem this i tr) = tr)
      \/ (TransportError e
          /\ exists options,
               snd (processItem this i tr) = (tr ++ [options])%list
               /\ method options = "POST")).
Proof.
  destruct (processItem_disciplined this i tr)
    as [(Htr & [(e' & He & Hi & Hn)|Hempty])
       |(options & Htr & Hm & [(response & Hr & _)|(e' & He & Ht)])];
    try congruence.
  - assert (e' = e) as -> by congruence. auto.
  - assert (e' = e) as -> by congruence. split.
    + destruct e; cbn in Ht |- *; tauto.
    + right. eauto.
Qed.

Lemma item_failures_witness :
  let this := hostAnswering (inr chatNotFound) (fun _ => sampleItem "@nochannel") 1 true in
  fst (processItem this 0 []) = inl (ApiError chatNotFound)
  /\ ItemError 0 (ApiError chatNotFound)
  /\ List.length (snd (processItem this 0 [])) = 1%nat.
Proof.
  intros this.
  destruct (item_failures this 0 [] (ApiError chatNotFound) eq_refl)
    as [Hitem [[Hn _]|(_ & options & Htr & _)]].
  - exfalso. apply Hn. exact I.
  - split; [reflexivity | split; [exact Hitem|]]. now rewrite Htr.
Defined.

(** X17. The successes of an item.  When processing an item succeeds, either
    no request was made and the result is the empty object (no operation was
    routed), or exactly one request was made and the result is a response
    whose [ok] is truthy: a response with a falsy [ok] never becomes a
    success record. *)
Theorem item_success
    (this : IExecuteFunctions) (i : nat) (tr : Trace)
    (responseData : gmap string value)
    (Hsucceeds : fst (processItem this i tr) = inr responseData) :
  (responseData = ∅ /\ snd (processItem this i tr) = tr)
  \/ (Js.truthy (get responseData "ok") = true
      /\ exists options,
           snd (processItem this i tr) = (tr ++ [options])%list
           /\ method options = "POST").
Proof.
  destruct (processItem_disciplined this i tr)
    as [(Htr & [(e' & He & _)|Hempty])
       |(options & Htr & Hm & [(response & Hr & Hok)|(e' & He & _)])];
    try congruence.
  - left. split; [congruence | exact Htr].
  - right. assert (response = responseData) as -> by congruence. eauto.
Qed.

Lemma item_success_witness :
  let this := sampleHost (fun _ => sampleItem "@validchannel") 1 false in
  fst (processItem this 0 []) = inr okResponse
  /\ Js.truthy (get okResponse "ok") = true
  /\ List.length (snd (processItem this 0 [])) = 1%nat.
Proof.
  intros this.
  destruct (item_success this 0 [] okResponse eq_refl)
    as [[Hempty _]|(Hok & options & Htr & _)].
  - discriminate Hempty.
  - split; [reflexivity | split; [exact Hok|]]. now rewrite Htr.
Defined.









(** X20. The body of [sendPhoto] and [sendDocument].  When the checks pass,
    every key of the body other than [caption] carries the caller's
    additional field of that name when there is one, and otherwise the
    computed [chat_id] or media reference: an additional field named
    [chat_id], [photo] or [document] replaces the argument that was
    checked. *)
Theorem media_body_merge
    (this : IExecuteFunctions) (chatId media : value)
    (Hvalid : validateChatId chatId = true)
    (Hmedia : Js.truthy media = true)
    (botToken additionalFields : value) (tr : Trace)
    (Hcaption :
       (String.length
          (sanitizeText
             (get (spread (orDefault additionalFields (VObj ∅))) "caption"))
        <= 1024)%nat) :
  let extra := spread (orDefault additionalFields (VObj ∅)) in
  exists photoBody documentBody,
    sendPhoto this chatId media botToken additionalFields tr
      = telegramApiRequest this "POST" "/sendPhoto" photoBody ∅ ∅ botToken tr
    /\ sendDocument this chatId media botToken additionalFields tr
      = telegramApiRequest this "POST" "/sendDocument" documentBody ∅ ∅ botToken tr
    /\ forall k, k <> "caption" ->
         photoBody !! k
           = match extra !! k with
             | Some v => Some v
             | None =>
                 ({[ "chat_id" := chatId; "photo" := media ]}
                    : gmap string value) !! k
             end
         /\ documentBody !! k
           = match extra !! k with
             | Some v => Some v
             | None =>
                 ({[ "chat_id" := chatId; "document" := media ]}
                    : gmap string value) !! k
             end.
Proof.
  intros extra. unfold sendPhoto, sendDocument.
  rewrite Hvalid, Hmedia. cbn [negb]. fold extra.
  set (photoCore := ({[ "chat_id" := chatId; "photo" := media ]} : gmap string value)).
  set (documentCore := ({[ "chat_id" := chatId; "document" := media ]} : gmap string value)).
  destruct (get_assign_fresh photoCore extra "caption" eq_refl) as [Pg _].
  destruct (get_assign_fresh documentCore extra "caption" eq_refl) as [Dg _].
  destruct (media_step this Photo "/sendPhoto" (assign photoCore extra) botToken tr)
    as (_ & _ & P).
  destruct (media_step this Document "/sendDocument" (assign documentCore extra)
              botToken tr) as (_ & _ & D).
  cbv zeta in P, D. rewrite Pg in P. rewrite Dg in D. fold extra in Hcaption.
  destruct (P Hcaption) as (photoBody & EP & PK & _).
  destruct (D Hcaption) as (documentBody & ED & DK & _).
  exists photoBody, documentBody. split; [exact EP | split; [exact ED|]].
  intros k Hk. rewrite (PK k Hk), (DK k Hk), !lookup_assign. auto.
Qed.

Lemma media_body_merge_witness :
  let this := sampleHost (fun _ => ∅) 1 false in
  let chatId := VStr "@validchannel" in
  let media := VStr "https://example.org/cat.png" in
  let additionalFields := VObj {[ "photo" := VStr "https://example.org/dog.png" ]} in
  validateChatId chatId = true
  /\ Js.truthy media = true
  /\ exists photoBody,
       sendPhoto this chatId media sampleToken additionalFields []
         = telegramApiRequest this "POST" "/sendPhoto" photoBody ∅ ∅ sampleToken []
       /\ photoBody !! "photo" = Some (VStr "https://example.org/dog.png")
       /\ photoBody !! "chat_id" = Some chatId.
Proof.
  intros this chatId media additionalFields.
  destruct (media_body_merge this chatId media eq_refl eq_refl sampleToken
              additionalFields []) as (photoBody & documentBody & EP & _ & HK);
    [vm_compute; lia|].
  split; [reflexivity | split; [reflexivity|]].
  exists photoBody. split; [exact EP|]. split.
  - exact (proj1 (HK "photo" ltac:(discriminate))).
  - exact (proj1 (HK "chat_id" ltac:(discriminate))).
Defined.

(** X21. Every error that the node creates itself has a non-empty message,
    so the [error] field of an error record is empty only for an exception
    of the host that has neither a message nor a name. *)
Theorem errorText_nonempty (e : Error)
    (Hown : forall cause, e <> HostError cause) :
  errorText e <> "".
Proof.
  destruct e as [[j|]|[j|]|chatId| |n| |[]|[] n|response| | |cause|a j|cause];
    cbn [errorText message mediaName]; try discriminate.
  now destruct (Hown cause).
Qed.

Lemma errorText_nonempty_witness :
  (forall cause, CaptionTooLong Photo 1025 <> HostError cause)
  /\ errorText (CaptionTooLong Photo 1025) <> "".
Proof.
  assert (H : forall cause, CaptionTooLong Photo 1025 <> HostError cause)
    by discriminate.
  split; [exact H | exact (errorText_nonempty (CaptionTooLong Photo 1025) H)].
Defined.

(** X22. A batch in which no item fails gives the same result with
    continue-on-failure enabled and disabled: the success records of all
    items, in order. *)
Theorem batch_without_failures
    (this : IExecuteFunctions) (tr : Trace)
    (Hall : forall j, (j < List.length (getInputData this))%nat ->
              isSuccess (outcome this tr j) = true) :
  let n := List.length (getInputData this) in
  execute this tr
  = (inr [map (fun i => recordOf i (outcome this tr i)) (seq 0 n)],
     traceBefore this tr n)
  /\ forall i, (i < n)%nat ->
       exists responseData,
         outcome this tr i = inr responseData
         /\ map (fun i => recordOf i (outcome this tr i)) (seq 0 n) !! i
            = Some {| json_ := responseData; pairedItem := i |}.
Proof.
  intros n. split.
  - unfold execute, bind. fold n.
    destruct (continueOnFail this) eqn:Hc.
    + pose proof (loop_continue this tr Hc n 0 []) as L.
      cbn [traceBefore app Nat.add] in L. now rewrite L.
    + pose proof (proj2 (loop_abort this tr Hc n 0 [])) as L.
      cbn [traceBefore app Nat.add] in L. rewrite L; [reflexivity|].
      intros j Hj. apply Hall. exact (proj2 Hj).
  - intros i Hi. specialize (Hall i Hi).
    destruct (outcome this tr i) as [e|d] eqn:E; [discriminate|].
    exists d. split; [reflexivity|].
    rewrite lookup_map_seq by assumption. cbn [Nat.add]. now rewrite E.
Qed.

Lemma batch_without_failures_witness :
  let continuing := sampleHost (fun _ => sampleItem "@validchannel") 2 true in
  let aborting := sampleHost (fun _ => sampleItem "@validchannel") 2 false in
  fst (execute continuing []) = fst (execute aborting [])
  /\ fst (execute aborting [])
     = inr [[ {| json_ := okResponse; pairedItem := 0 |};
              {| json_ := okResponse; pairedItem := 1 |} ]].
Proof.
  intros continuing aborting.
  assert (Hc : forall j, (j < List.length (getInputData continuing))%nat ->
                 isSuccess (outcome continuing [] j) = true).
  { intros j Hj. change (j < 2)%nat in Hj.
    destruct j as [|[|j]]; [reflexivity | reflexivity | lia]. }
  assert (Ha : forall j, (j < List.length (getInputData aborting))%nat ->
                 isSuccess (outcome aborting [] j) = true).
  { intros j Hj. change (j < 2)%nat in Hj.
    destruct j as [|[|j]]; [reflexivity | reflexivity | lia]. }
  destruct (batch_without_failures continuing [] Hc) as [Ec _].
  destruct (batch_without_failures aborting [] Ha) as [Ea _].
  rewrite Ec, Ea. split; reflexivity.
Defined.
